(** * CareerTalkBot: the tool-calling / self-evaluation loop of [app.py]

    A shallow embedding of [src/app.py]: the two recording tools and the
    notifier, tool dispatch ([Me.handle_tool_call]), prompt construction,
    the evaluator, the regeneration call and the conversation loop
    ([Me.chat]).

    Effects are explicit.  Everything the program says to the outside
    (standard output, the notification service, the three model calls) is
    appended to a chronological [trace]; the Python list objects that are
    shared with the caller or mutated in place live in a [store]; the
    agent object [self] is part of the state.  A computation either
    returns, raises, or runs out of the fuel that bounds the [while] loop.

    What the outside answers is not part of the program: the replies of the
    model endpoints, the JSON decoder of the Python library and the textual
    form ([str], [repr]) of foreign objects are fields of a [World], and the
    theorems hold for every world.  Failures of the endpoints are outside
    the model: a request that raises in transport, an evaluation whose
    parsed answer is missing.  The evaluator and the regeneration endpoint
    are taken to answer, so the statements say what a turn does when they
    do, and nothing about a turn in which one of them fails. *)

From Stdlib Require Import Ascii String.
From stdpp Require Import base option list gmap strings.

Local Open Scope stdpp_scope.

(** ** Text *)

(** The line feed and the double quote, the two characters of the
    program's literals that a literal here cannot spell. *)
Definition nl : string := String "010"%char EmptyString.
Definition dq : string := String "034"%char EmptyString.

(** [quoted s] is [s] between double quotes. *)
Definition quoted (s : string) : string := dq +:+ s +:+ dq.

(** [contains s sub]: [sub] occurs in [s]. *)
Definition contains (s sub : string) : Prop :=
  exists before after, s = before +:+ sub +:+ after.

(** ** JSON values, as [json.loads] produces them *)

#[warnings="-register-all"]
Inductive JValue : Type :=
  | JNull
  | JBool (b : bool)
  | JInt (z : Z)
  | JFloat (literal : string)
  | JStr (s : string)
  | JArr (items : list JValue)
  | JObj (items : list (string * JValue)).

(** Keyword arguments: the items of a decoded JSON object. *)
Abbreviation Kwargs := (list (string * JValue)).

Fixpoint kw_get (k : string) (kw : Kwargs) : option JValue :=
  match kw with
  | [] => None
  | (k', v) :: rest => if String.eqb k k' then Some v else kw_get k rest
  end.

(** Every key of [kw] is one of [names]. *)
Definition kw_within (names : list string) (kw : Kwargs) : bool :=
  forallb (fun kv => existsb (String.eqb (fst kv)) names) kw.

(** ** Data model *)

(** A tool call of a model response: [tool_call.id],
    [tool_call.function.name], [tool_call.function.arguments]. *)
Record ToolCall : Type := mkToolCall {
  tc_id : string;
  tc_name : string;
  tc_arguments : string
}.

(** [response.choices[0].message]: the content may be [None]. *)
Record ChatMessage : Type := mkChatMessage {
  content : option string;
  tool_calls : list ToolCall
}.

(** [response.choices[0]] of a chat completion. *)
Record Response : Type := mkResponse {
  finish_reason : string;
  resp_message : ChatMessage
}.

(** A value found where a text is expected: a string, or the message
    object of a response (the variable [message] of [chat] holds either). *)
Inductive Value : Type :=
  | Str (s : string)
  | MessageObj (m : ChatMessage).

(** An entry of a message sequence. *)
Inductive Message : Type :=
  | Dict (role : string) (body : Value)
      (* {"role": role, "content": body} *)
  | ToolDict (body : string) (tool_call_id : string)
      (* {"role": "tool", "content": body, "tool_call_id": id} *)
  | Completion (m : ChatMessage).
      (* a response's message object, appended as it is *)

(** class Evaluation(BaseModel) *)
Record Evaluation : Type := mkEvaluation {
  is_acceptable : bool;
  feedback : string
}.

(** A tool declaration: the JSON schema given to the model. *)
Record ToolSpec : Type := mkToolSpec {
  ts_name : string;
  ts_description : string;
  ts_properties : list (string * string);   (* name, description; all of type string *)
  ts_required : list string;
  ts_additionalProperties : bool
}.

Definition record_user_details_json : ToolSpec :=
  {| ts_name := "record_user_details";
     ts_description := "Use this tool to record that a user is interested in being in touch and provided an email address";
     ts_properties :=
       [("email", "The email address of this user");
        ("name", "The user's name, if they provided it");
        ("notes", "Any additional information about the conversation that's worth recording to give context")];
     ts_required := ["email"];
     ts_additionalProperties := false |}.

Definition record_unknown_question_json : ToolSpec :=
  {| ts_name := "record_unknown_question";
     ts_description := "Always use this tool to record any question that couldn't be answered as you didn't know the answer";
     ts_properties := [("question", "The question that couldn't be answered")];
     ts_required := ["question"];
     ts_additionalProperties := false |}.

(** tools = [{"type": "function", "function": ...}, ...] *)
Definition tools : list ToolSpec :=
  [record_user_details_json; record_unknown_question_json].

(** ** The outside world *)

Inductive Client : Type := openai | gemini.

Inductive Event : Type :=
  | Print (line : string)
  | Post (url : string) (token user : option string) (text : JValue)
      (* requests.post(url, data={"token":.., "user":.., "message": text}) *)
  | Create (c : Client) (model : string) (messages : list Message)
           (tool_specs : option (list ToolSpec))
      (* c.chat.completions.create(model=.., messages=.., [tools=..]) *)
  | Parse (c : Client) (model : string) (messages : list Message)
      (* c.beta.chat.completions.parse(.., response_format=Evaluation) *)
  | Invoke (callee : string) (kw : Kwargs).
      (* a call of an imported function or of a class *)

Inductive PyError : Type :=
  | JSONDecodeError
  | TypeError
  | ForeignError
  | InvalidReference.

(** The value a dispatched callable returned. *)
Inductive ToolOutput : Type :=
  | Acknowledged                      (* {"recorded": "ok"} *)
  | EmptyResult                       (* {} *)
  | NoneResult                        (* None *)
  | ForeignResult (dumped : option string).
      (* any other object, with its JSON text when it has one *)

(** The objects bound in a module namespace. *)
Inductive ModuleFunction : Type :=
  | fn_push
  | fn_record_user_details
  | fn_record_unknown_question.

Inductive PyObject : Type :=
  | NoneObj
  | StrObj (s : string)
  | DictObj (size : nat)
  | ListObj (size : nat)
  | ModuleObj (name : string)
  | InstanceObj (class_name : string)
  | FunctionObj (f : ModuleFunction)
  | ForeignCallable (name : string).

Record World : Type := mkWorld {
  (** json.loads: [None] when it raises JSONDecodeError *)
  json_loads : string -> option JValue;
  (** str() of a decoded value that is not a string *)
  repr_value : JValue -> string;
  (** str() of a response's message object *)
  repr_message : ChatMessage -> string;
  (** str() of a list of messages *)
  repr_history : list Message -> string;
  (** os.getenv *)
  getenv : string -> option string;
  (** the module namespace, [globals()] *)
  globals : gmap string PyObject;
  (** what a call of an imported function or class does: raise, or return *)
  foreign_call : string -> Kwargs -> option ToolOutput;
  (** the primary endpoint's answer to the request of a given round *)
  primary : nat -> list Message -> Response;
  (** the evaluator's parsed answer, when the evaluator answers *)
  evaluator : list Message -> Evaluation;
  (** the regeneration endpoint's answer, when it answers *)
  secondary : list Message -> Response
}.

(** ** The agent object *)

Record Me : Type := mkMe {
  name : string;
  linkedin : string;
  summary : string
}.

(** Me.__init__: [pages] are the results of [page.extract_text()] over the
    profile document, [summary_file] the content of the summary file. *)
Definition Me_init (pages : list (option string)) (summary_file : string) : Me :=
  {| name := "Arpan Bandyopadhyay";
     linkedin :=
       fold_left
         (fun acc text =>
            match text with
            | Some t => if String.eqb t "" then acc else acc +:+ t
            | None => acc
            end)
         pages "";
     summary := summary_file |}.

(** ** State and computations *)

Record State : Type := mkState {
  agent : Me;
  store : list (list Message);
  trace : list Event
}.

Inductive Outcome (A : Type) : Type :=
  | Returned (a : A)
  | Raised (e : PyError)
  | OutOfFuel.
Arguments Returned {A} a.
Arguments Raised {A} e.
Arguments OutOfFuel {A}.

Definition M (A : Type) : Type := State -> Outcome A * State.

Definition ret {A} (a : A) : M A := fun st => (Returned a, st).

Definition raise {A} (e : PyError) : M A := fun st => (Raised e, st).

Definition out_of_fuel {A} : M A := fun st => (OutOfFuel, st).

Definition bind {A B} (c : M A) (k : A -> M B) : M B :=
  fun st =>
    match c st with
    | (Returned a, st') => k a st'
    | (Raised e, st') => (Raised e, st')
    | (OutOfFuel, st') => (OutOfFuel, st')
    end.

Notation "x <- c ;; k" := (bind c (fun x => k))
  (at level 100, c at next level, right associativity).
Notation "c ;;; k" := (bind c (fun _ => k))
  (at level 100, right associativity).

(** [log st evs]: the state [st] after the events [evs]. *)
Definition log (st : State) (evs : list Event) : State :=
  {| agent := agent st; store := store st; trace := trace st ++ evs |}.

Definition emit (e : Event) : M unit := fun st => (Returned tt, log st [e]).

Definition get_self : M Me := fun st => (Returned (agent st), st).

(** Reading a list object. *)
Definition deref (l : nat) : M (list Message) :=
  fun st =>
    match store st !! l with
    | Some ms => (Returned ms, st)
    | None => (Raised InvalidReference, st)
    end.

(** A new list object; its address is returned. *)
Definition alloc (ms : list Message) : M nat :=
  fun st =>
    (Returned (length (store st)),
     {| agent := agent st; store := store st ++ [ms]; trace := trace st |}).

(** list.extend in place ([append] is [extend] with one item). *)
Definition extend (l : nat) (items : list Message) : M unit :=
  fun st =>
    match store st !! l with
    | Some ms =>
        (Returned tt,
         {| agent := agent st; store := <[l := ms ++ items]> (store st); trace := trace st |})
    | None => (Raised InvalidReference, st)
    end.

(** ** Python's [str] on the values that reach an f-string *)

Definition str_json (W : World) (v : JValue) : string :=
  match v with
  | JStr s => s
  | _ => repr_value W v
  end.

Definition str_value (W : World) (v : Value) : string :=
  match v with
  | Str s => s
  | MessageObj m => repr_message W m
  end.

Definition str_reply (reply : option string) : string :=
  match reply with
  | Some s => s
  | None => "None"
  end.

(** ** The notifier and the two tools *)

Definition push (W : World) (text : JValue) : M ToolOutput :=
  emit (Post "https://api.pushover.net/1/messages.json"
             (getenv W "PUSHOVER_TOKEN") (getenv W "PUSHOVER_USER") text) ;;;
  ret NoneResult.

(** [name] and [notes] are [None] when the caller leaves them out. *)
Definition record_user_details (W : World) (email : JValue) (name notes : option JValue)
  : M ToolOutput :=
  let name := default (JStr "Name not provided") name in
  let notes := default (JStr "not provided") notes in
  push W (JStr ("Recording " +:+ str_json W name +:+ " with email " +:+ str_json W email
                +:+ " and notes " +:+ str_json W notes)) ;;;
  ret Acknowledged.

Definition record_unknown_question (W : World) (question : JValue) : M ToolOutput :=
  push W (JStr ("Recording " +:+ str_json W question)) ;;;
  ret Acknowledged.

(** ** Tool dispatch *)

Definition truthy (o : PyObject) : bool :=
  match o with
  | NoneObj => false
  | StrObj s => negb (String.eqb s "")
  | DictObj n | ListObj n => negb (Nat.eqb n 0)
  | ModuleObj _ | InstanceObj _ | FunctionObj _ | ForeignCallable _ => true
  end.

Definition callable (o : PyObject) : bool :=
  match o with
  | FunctionObj _ | ForeignCallable _ => true
  | _ => false
  end.

(** The parameters of the functions of the module, and those that have
    no default. *)
Definition parameters (f : ModuleFunction) : list string :=
  match f with
  | fn_push => ["text"]
  | fn_record_user_details => ["email"; "name"; "notes"]
  | fn_record_unknown_question => ["question"]
  end.

Definition required (f : ModuleFunction) : list string :=
  match f with
  | fn_push => ["text"]
  | fn_record_user_details => ["email"]
  | fn_record_unknown_question => ["question"]
  end.

(** The keyword arguments [kw] bind to the parameters of [f]: every key
    is a parameter, and every parameter without a default is given. *)
Definition accepts (f : ModuleFunction) (kw : Kwargs) : bool :=
  kw_within (parameters f) kw
  && forallb (fun p => match kw_get p kw with Some _ => true | None => false end)
       (required f).

(** A call of a function of the module with the keyword arguments [kw];
    Python raises TypeError when the arguments do not bind. *)
Definition call_function (W : World) (f : ModuleFunction) (kw : Kwargs) : M ToolOutput :=
  if accepts f kw then
    match f with
    | fn_push =>
        match kw_get "text" kw with
        | Some text => push W text
        | None => raise TypeError
        end
    | fn_record_user_details =>
        match kw_get "email" kw with
        | Some email => record_user_details W email (kw_get "name" kw) (kw_get "notes" kw)
        | None => raise TypeError
        end
    | fn_record_unknown_question =>
        match kw_get "question" kw with
        | Some question => record_unknown_question W question
        | None => raise TypeError
        end
    end
  else raise TypeError.

(** The call of [tool] with the keyword arguments [arguments]. *)
Definition call_object (W : World) (tool : PyObject) (arguments : JValue) : M ToolOutput :=
  match arguments with
  | JObj kw =>
      match tool with
      | FunctionObj f => call_function W f kw
      | ForeignCallable callee =>
          emit (Invoke callee kw) ;;;
          match foreign_call W callee kw with
          | Some r => ret r
          | None => raise ForeignError
          end
      | _ => raise TypeError          (* the object is not callable *)
      end
  | _ => raise TypeError              (* the arguments are no mapping *)
  end.

(** json.dumps on what a dispatched callable returned *)
Definition json_dumps (r : ToolOutput) : M string :=
  match r with
  | Acknowledged => ret ("{" +:+ quoted "recorded" +:+ ": " +:+ quoted "ok" +:+ "}")
  | EmptyResult => ret "{}"
  | NoneResult => ret "null"
  | ForeignResult (Some text) => ret text
  | ForeignResult None => raise TypeError
  end.

(** The body of the [for] loop of [handle_tool_call]. *)
Definition dispatch (W : World) (tool_call : ToolCall) : M Message :=
  let tool_name := tc_name tool_call in
  arguments <- match json_loads W (tc_arguments tool_call) with
               | Some v => ret v
               | None => raise JSONDecodeError
               end ;;
  emit (Print ("Tool called: " +:+ tool_name)) ;;;
  let tool := default NoneObj (globals W !! tool_name) in
  result <- (if truthy tool then call_object W tool arguments else ret EmptyResult) ;;
  body <- json_dumps result ;;
  ret (ToolDict body (tc_id tool_call)).

Fixpoint handle_loop (W : World) (tool_calls : list ToolCall) (results : list Message)
  : M (list Message) :=
  match tool_calls with
  | [] => ret results
  | tool_call :: rest =>
      r <- dispatch W tool_call ;;
      handle_loop W rest (results ++ [r])
  end.

Definition handle_tool_call (W : World) (tool_calls : list ToolCall) : M (list Message) :=
  handle_loop W tool_calls [].

(** ** Prompts *)

Definition system_prompt (me : Me) : string :=
  (("You are acting as " +:+ name me +:+ ". You are answering questions on " +:+ name me
    +:+ "'s website, particularly questions related to " +:+ name me
    +:+ "'s career, background, skills and experience. Your responsibility is to represent "
    +:+ name me
    +:+ " for interactions on the website as faithfully as possible. You are given a summary of "
    +:+ name me
    +:+ "'s background and LinkedIn profile which you can use to answer questions. Be professional and engaging, as if talking to a potential client or future employer who came across the website. If you don't know the answer to any question, use your record_unknown_question tool to record the question that you couldn't answer, even if it's about something trivial or unrelated to career. If the user is engaging in discussion, try to steer them towards getting in touch via email; ask for their email and record it using your record_user_details tool. ")
   +:+ (nl +:+ nl +:+ "## Summary:" +:+ nl +:+ summary me +:+ nl +:+ nl
        +:+ "## LinkedIn Profile:" +:+ nl +:+ linkedin me +:+ nl +:+ nl))
  +:+ ("With this context, please chat with the user, always staying in character as "
       +:+ name me +:+ ".").

Definition evaluator_system_prompt (me : Me) : string :=
  (("You are an evaluator that decides whether a response to a question is acceptable.     You are provided with a conversation between a User and an Agent. Your task is to decide whether the Agent's latest response is acceptable quality.     The Agent is playing the role of "
    +:+ name me +:+ " and is representing " +:+ name me
    +:+ " on their website.     The Agent has been instructed to be professional and engaging, as if talking to a potential client or future employer who came across the website.     The Agent has been provided with context on "
    +:+ name me
    +:+ " in the form of their summary and LinkedIn details. Here's the information:")
   +:+ (nl +:+ nl +:+ "## Summary:" +:+ nl +:+ summary me +:+ nl +:+ nl
        +:+ "## LinkedIn Profile:" +:+ nl +:+ linkedin me +:+ nl +:+ nl))
  +:+ "With this context, please evaluate the latest response, replying with whether the response is acceptable and your feedback.".

(** [history] is the list the caller passed, as it reads when the prompt
    is built. *)
Definition evaluator_user_prompt (W : World) (reply : option string) (message : Value)
    (history : list Message) : string :=
  ((("Here's the conversation between the User and the Agent: " +:+ nl +:+ nl
     +:+ repr_history W history +:+ nl +:+ nl)
    +:+ ("Here's the latest message from the User: " +:+ nl +:+ nl
         +:+ str_value W message +:+ nl +:+ nl))
   +:+ ("Here's the latest response from the Agent: " +:+ nl +:+ nl
        +:+ str_reply reply +:+ nl +:+ nl))
  +:+ "Please evaluate the response, replying with whether it is acceptable and your feedback.".

(** ** Evaluation and regeneration *)

Definition evaluate (W : World) (reply : option string) (message : Value) (history : nat)
  : M Evaluation :=
  me <- get_self ;;
  h <- deref history ;;
  let messages :=
    [Dict "system" (Str (evaluator_system_prompt me))]
    ++ [Dict "user" (Str (evaluator_user_prompt W reply message h))] in
  emit (Parse gemini "gemini-2.0-flash" messages) ;;;
  ret (evaluator W messages).

Definition rerun (W : World) (reply : option string) (message : Value) (history : nat)
    (feedback : string) : M (option string) :=
  me <- get_self ;;
  let updated_system_prompt :=
    ((system_prompt me
      +:+ (nl +:+ nl +:+ "## Previous answer rejected" +:+ nl
           +:+ "You just tried to reply, but the quality control rejected your reply" +:+ nl))
     +:+ ("## Your attempted answer:" +:+ nl +:+ str_reply reply +:+ nl +:+ nl))
    +:+ ("## Reason for rejection:" +:+ nl +:+ feedback +:+ nl +:+ nl) in
  h <- deref history ;;
  let messages :=
    [Dict "system" (Str updated_system_prompt)] ++ h ++ [Dict "user" message] in
  emit (Create gemini "gemini-2.0-flash" messages None) ;;;
  ret (content (resp_message (secondary W messages))).

(** ** The conversation loop *)

(** The [while not done] loop of [chat].  [round] counts the requests made
    so far; [messages] is the address of the running message sequence and
    [message] the current value of the variable of that name. *)
Fixpoint chat_loop (W : World) (fuel round : nat) (messages : nat) (message : Value)
  : M (Response * Value) :=
  match fuel with
  | O => out_of_fuel
  | S fuel' =>
      sent <- deref messages ;;
      emit (Create openai "gpt-4o-mini" sent (Some tools)) ;;;
      let response := primary W round sent in
      if String.eqb (finish_reason response) "tool_calls" then
        let message := MessageObj (resp_message response) in
        let tool_calls := tool_calls (resp_message response) in
        results <- handle_tool_call W tool_calls ;;
        extend messages [Completion (resp_message response)] ;;;
        extend messages results ;;;
        chat_loop W fuel' (S round) messages message
      else ret (response, message)
  end.

Definition chat (W : World) (fuel : nat) (message : string) (history : nat)
  : M (option string) :=
  me <- get_self ;;
  h <- deref history ;;
  messages <- alloc ([Dict "system" (Str (system_prompt me))] ++ h
                     ++ [Dict "user" (Str message)]) ;;
  looped <- chat_loop W fuel 0 messages (Str message) ;;
  let response := fst looped in
  let message := snd looped in
  let reply := content (resp_message response) in
  evaluation <- evaluate W reply message history ;;
  if is_acceptable evaluation then
    emit (Print "Passed evaluation - returning reply") ;;;
    ret reply
  else
    emit (Print "Failed evaluation - retrying") ;;;
    emit (Print (feedback evaluation)) ;;;
    rerun W reply message history (feedback evaluation).

(** ** The module namespace *)

(** The names [app.py] binds at module level, in the order of the file:
    its imports, the class [Evaluation], the three functions, the two
    schema dictionaries, the list [tools] and the class [Me]. *)
Definition module_bindings : list (string * PyObject) :=
  [("load_dotenv", ForeignCallable "load_dotenv");
   ("OpenAI", ForeignCallable "OpenAI");
   ("json", ModuleObj "json");
   ("os", ModuleObj "os");
   ("requests", ModuleObj "requests");
   ("PdfReader", ForeignCallable "PdfReader");
   ("gr", ModuleObj "gradio");
   ("BaseModel", ForeignCallable "BaseModel");
   ("Evaluation", ForeignCallable "Evaluation");
   ("push", FunctionObj fn_push);
   ("record_user_details", FunctionObj fn_record_user_details);
   ("record_unknown_question", FunctionObj fn_record_unknown_question);
   ("record_user_details_json", DictObj 3);
   ("record_unknown_question_json", DictObj 3);
   ("tools", ListObj 2);
   ("Me", ForeignCallable "Me")].

(** The namespace of [app.py] run as a script.  Besides what the file
    binds, the interpreter binds [__name__], [__doc__] (the file has no
    docstring, so it is [None]), [__package__] and [__spec__] ([None] for
    a script), the loader object, the path of the file and the module of
    the built-in names; the last statement of the file binds [me]. *)
Definition script_globals : gmap string PyObject :=
  list_to_map
    (module_bindings
     ++ [("__name__", StrObj "__main__");
         ("__doc__", NoneObj);
         ("__package__", NoneObj);
         ("__loader__", InstanceObj "SourceFileLoader");
         ("__spec__", NoneObj);
         ("__builtins__", ModuleObj "builtins");
         ("__file__", StrObj "app.py");
         ("me", InstanceObj "Me")]).

(** A namespace of the module holds at least what the file binds. *)
Definition namespace_of_module (g : gmap string PyObject) : Prop :=
  Forall (fun kv => g !! fst kv = Some (snd kv)) module_bindings.

(** ** A reference JSON decoder

    The decoder of the Python library is a parameter of the development.
    To run the program on concrete tool calls, [reference_json_loads]
    follows the grammar [json.loads] accepts.  A text is held as its
    UTF-8 bytes (a lone surrogate escape as its three-byte form), and a
    number with a fraction or an exponent, like the constants [NaN] and
    [Infinity], as its literal. *)

Definition is_ws (c : ascii) : bool :=
  Ascii.eqb c " " || Ascii.eqb c "009" || Ascii.eqb c "010" || Ascii.eqb c "013".

Definition is_digit (c : ascii) : bool :=
  (48 <=? nat_of_ascii c) && (nat_of_ascii c <=? 57).

Fixpoint skip_ws (s : list ascii) : list ascii :=
  match s with
  | c :: r => if is_ws c then skip_ws r else s
  | [] => []
  end.

Definition unescape (c : ascii) : option ascii :=
  if Ascii.eqb c "034" then Some "034"%char
  else if Ascii.eqb c "\" then Some "\"%char
  else if Ascii.eqb c "/" then Some "/"%char
  else if Ascii.eqb c "b" then Some "008"%char
  else if Ascii.eqb c "f" then Some "012"%char
  else if Ascii.eqb c "n" then Some "010"%char
  else if Ascii.eqb c "r" then Some "013"%char
  else if Ascii.eqb c "t" then Some "009"%char
  else None.

(** The value of a hexadecimal digit. *)
Definition hex_value (c : ascii) : option Z :=
  let n := Z.of_nat (nat_of_ascii c) in
  if (48 <=? n)%Z && (n <=? 57)%Z then Some (n - 48)%Z
  else if (97 <=? n)%Z && (n <=? 102)%Z then Some (n - 87)%Z
  else if (65 <=? n)%Z && (n <=? 70)%Z then Some (n - 55)%Z
  else None.

(** The four hexadecimal digits of an escape, and what follows them. *)
Definition scan_hex4 (s : list ascii) : option (Z * list ascii) :=
  match s with
  | a :: b :: c :: d :: rest =>
      match hex_value a, hex_value b, hex_value c, hex_value d with
      | Some x, Some y, Some z, Some w => Some ((((x * 16 + y) * 16 + z) * 16 + w)%Z, rest)
      | _, _, _, _ => None
      end
  | _ => None
  end.

Definition byte (z : Z) : string := String (ascii_of_nat (Z.to_nat z)) EmptyString.

(** The UTF-8 bytes of a code point. *)
Definition utf8 (cp : Z) : string :=
  if (cp <? 128)%Z then byte cp
  else if (cp <? 2048)%Z then byte (192 + cp / 64) +:+ byte (128 + cp mod 64)
  else if (cp <? 65536)%Z then
    byte (224 + cp / 4096) +:+ byte (128 + (cp / 64) mod 64) +:+ byte (128 + cp mod 64)
  else
    byte (240 + cp / 262144) +:+ byte (128 + (cp / 4096) mod 64)
    +:+ byte (128 + (cp / 64) mod 64) +:+ byte (128 + cp mod 64).

(** The code point of a unicode escape whose [u] has been read, and what
    follows it: a high surrogate joins the low surrogate escaped right
    after it. *)
Definition scan_unicode (s : list ascii) : option (Z * list ascii) :=
  match scan_hex4 s with
  | Some (uni, rest) =>
      if (55296 <=? uni)%Z && (uni <=? 56319)%Z then
        match rest with
        | b :: u :: rest' =>
            if Ascii.eqb b "\" && Ascii.eqb u "u" then
              match scan_hex4 rest' with
              | Some (uni2, rest2) =>
                  if (56320 <=? uni2)%Z && (uni2 <=? 57343)%Z
                  then Some ((65536 + ((uni - 55296) * 1024 + (uni2 - 56320)))%Z, rest2)
                  else Some (uni, rest)
              | None => None
              end
            else Some (uni, rest)
        | _ => Some (uni, rest)
        end
      else Some (uni, rest)
  | None => None
  end.

(** The rest of a string literal after its opening quote. *)
Fixpoint scan_string (fuel : nat) (s : list ascii) (acc : string)
  : option (string * list ascii) :=
  match fuel with
  | O => None
  | S fuel =>
      match s with
      | [] => None
      | c :: r =>
          if Ascii.eqb c "034" then Some (acc, r)
          else if Ascii.eqb c "\" then
            match r with
            | e :: r' =>
                if Ascii.eqb e "u" then
                  match scan_unicode r' with
                  | Some (cp, rest) => scan_string fuel rest (acc +:+ utf8 cp)
                  | None => None
                  end
                else
                  match unescape e with
                  | Some x => scan_string fuel r' (acc +:+ String x EmptyString)
                  | None => None
                  end
            | [] => None
            end
          else if nat_of_ascii c <? 32 then None
          else scan_string fuel r (acc +:+ String c EmptyString)
      end
  end.

Fixpoint scan_digits (s : list ascii) (acc : Z) : Z * list ascii :=
  match s with
  | c :: r =>
      if is_digit c then scan_digits r (10 * acc + (Z.of_nat (nat_of_ascii c) - 48))%Z
      else (acc, s)
  | [] => (acc, [])
  end.

(** What follows a run of at least one digit. *)
Definition after_digits (s : list ascii) : option (list ascii) :=
  match s with
  | d :: _ => if is_digit d then Some (snd (scan_digits s 0)) else None
  | [] => None
  end.

(** What follows a fraction, when [s] begins with one. *)
Definition after_fraction (s : list ascii) : option (list ascii) :=
  match s with
  | d :: r => if Ascii.eqb d "." then after_digits r else None
  | [] => None
  end.

(** What follows an exponent, when [s] begins with one. *)
Definition after_exponent (s : list ascii) : option (list ascii) :=
  match s with
  | e :: r =>
      if Ascii.eqb e "e" || Ascii.eqb e "E" then
        match r with
        | sign :: r' =>
            if Ascii.eqb sign "+" || Ascii.eqb sign "-" then after_digits r'
            else after_digits r
        | [] => None
        end
      else None
  | [] => None
  end.

(** A number: an optional sign, an integer part without leading zeros,
    and as much of a fraction and an exponent as is well formed. *)
Definition scan_number (s : list ascii) : option (JValue * list ascii) :=
  let negative := match s with c :: _ => Ascii.eqb c "-" | [] => false end in
  let body := if negative then tail s else s in
  match body with
  | c :: r =>
      if negb (is_digit c) then None
      else
        let '(z, rest) := if Ascii.eqb c "0" then (0%Z, r) else scan_digits body 0 in
        let fraction := after_fraction rest in
        let rest1 := default rest fraction in
        let exponent := after_exponent rest1 in
        let rest2 := default rest1 exponent in
        match fraction, exponent with
        | None, None => Some (JInt (if negative then - z else z), rest2)
        | _, _ =>
            Some (JFloat (string_of_list_ascii (take (length s - length rest2) s)), rest2)
        end
  | [] => None
  end.

Fixpoint strip_prefix (p s : list ascii) : option (list ascii) :=
  match p, s with
  | [], _ => Some s
  | a :: p', b :: s' => if Ascii.eqb a b then strip_prefix p' s' else None
  | _ :: _, [] => None
  end.

(** Assignment to a key of a dictionary: a repeated key keeps its place
    and takes the last value. *)
Fixpoint kw_set (k : string) (v : JValue) (kw : Kwargs) : Kwargs :=
  match kw with
  | [] => [(k, v)]
  | (k', v') :: rest =>
      if String.eqb k k' then (k, v) :: rest else (k', v') :: kw_set k v rest
  end.

Definition scan_atom (s : list ascii) : option (JValue * list ascii) :=
  match s with
  | [] => None
  | c :: r =>
      if Ascii.eqb c "034" then
        match scan_string (S (length r)) r "" with
        | Some (text, rest) => Some (JStr text, rest)
        | None => None
        end
      else
        match strip_prefix (list_ascii_of_string "null") s,
              strip_prefix (list_ascii_of_string "true") s,
              strip_prefix (list_ascii_of_string "false") s with
        | Some rest, _, _ => Some (JNull, rest)
        | _, Some rest, _ => Some (JBool true, rest)
        | _, _, Some rest => Some (JBool false, rest)
        | None, None, None =>
            match scan_number s with
            | Some found => Some found
            | None =>
                match strip_prefix (list_ascii_of_string "NaN") s,
                      strip_prefix (list_ascii_of_string "Infinity") s,
                      strip_prefix (list_ascii_of_string "-Infinity") s with
                | Some rest, _, _ => Some (JFloat "NaN", rest)
                | _, Some rest, _ => Some (JFloat "Infinity", rest)
                | _, _, Some rest => Some (JFloat "-Infinity", rest)
                | None, None, None => None
                end
            end
        end
  end.

Fixpoint parse_value (fuel : nat) (s : list ascii) : option (JValue * list ascii) :=
  match fuel with
  | O => None
  | S fuel =>
      match skip_ws s with
      | [] => None
      | c :: r =>
          if Ascii.eqb c "{" then
            match skip_ws r with
            | d :: r' =>
                if Ascii.eqb d "}" then Some (JObj [], r') else parse_members fuel r []
            | [] => None
            end
          else if Ascii.eqb c "[" then
            match skip_ws r with
            | d :: r' =>
                if Ascii.eqb d "]" then Some (JArr [], r') else parse_elements fuel r []
            | [] => None
            end
          else scan_atom (c :: r)
      end
  end
with parse_elements (fuel : nat) (s : list ascii) (acc : list JValue)
  : option (JValue * list ascii) :=
  match fuel with
  | O => None
  | S fuel =>
      match parse_value fuel s with
      | Some (v, r) =>
          match skip_ws r with
          | d :: r' =>
              if Ascii.eqb d "," then parse_elements fuel r' (acc ++ [v])
              else if Ascii.eqb d "]" then Some (JArr (acc ++ [v]), r')
              else None
          | [] => None
          end
      | None => None
      end
  end
with parse_members (fuel : nat) (s : list ascii) (acc : Kwargs)
  : option (JValue * list ascii) :=
  match fuel with
  | O => None
  | S fuel =>
      match skip_ws s with
      | q :: r =>
          if negb (Ascii.eqb q "034") then None
          else
            match scan_string (S (length r)) r "" with
            | Some (k, r1) =>
                match skip_ws r1 with
                | colon :: r2 =>
                    if negb (Ascii.eqb colon ":") then None
                    else
                      match parse_value fuel r2 with
                      | Some (v, r3) =>
                          match skip_ws r3 with
                          | d :: r4 =>
                              if Ascii.eqb d "," then parse_members fuel r4 (kw_set k v acc)
                              else if Ascii.eqb d "}" then Some (JObj (kw_set k v acc), r4)
                              else None
                          | [] => None
                          end
                      | None => None
                      end
                | [] => None
                end
            | None => None
            end
      | [] => None
      end
  end.

Definition reference_json_loads (text : string) : option JValue :=
  let s := list_ascii_of_string text in
  match parse_value (2 * length s + 2) s with
  | Some (v, rest) =>
      match skip_ws rest with
      | [] => Some v
      | _ :: _ => None
      end
  | None => None
  end.

(** ** Scripted worlds

    The stubs of the specification's tests: the primary endpoint answers
    the request of round [i] with the [i]-th response of [script] (and
    with [last] once the script is over), the evaluator always returns
    [verdict], the regeneration endpoint always returns [regenerated]. *)
Definition scripted_world (script : list Response) (last : Response)
    (verdict : Evaluation) (regenerated : Response) : World :=
  {| json_loads := reference_json_loads;
     repr_value := fun _ => "<value>";
     repr_message := fun _ => "<message>";
     repr_history := fun _ => "<history>";
     getenv := fun _ => None;
     globals := script_globals;
     foreign_call := fun _ _ => None;
     primary := fun round _ => nth round script last;
     evaluator := fun _ => verdict;
     secondary := fun _ => regenerated |}.

Definition plain (text : string) : Response :=
  {| finish_reason := "stop";
     resp_message := {| content := Some text; tool_calls := [] |} |}.

Definition tool_request (calls : list ToolCall) : Response :=
  {| finish_reason := "tool_calls";
     resp_message := {| content := None; tool_calls := calls |} |}.

(** The JSON text of an object with one string member. *)
Definition json_object1 (key value : string) : string :=
  "{" +:+ quoted key +:+ ": " +:+ quoted value +:+ "}".

Definition me0 : Me := Me_init [Some "Profile"; None; Some ""; Some " page 2"] "Summary".

Definition state0 : State :=
  {| agent := me0; store := [[Dict "user" (Str "hello"); Dict "assistant" (Str "hi")]]; trace := [] |}.

(** A world for running tool dispatch alone. *)
Definition world0 : World :=
  scripted_world [] (plain "") (mkEvaluation true "") (plain "").

(** The call of the sample turns: the model asks to record a question. *)
Definition sample_call : ToolCall :=
  mkToolCall "c1" "record_unknown_question" (json_object1 "question" "age?").

(** One tool request, then the plain answer; the evaluator rejects it. *)
Definition world_rejecting : World :=
  scripted_world [tool_request [sample_call]] (plain "answer")
    (mkEvaluation false "too terse") (plain "better").

(** One tool request, then the plain answer; the evaluator accepts it. *)
Definition world_accepting : World :=
  scripted_world [tool_request [sample_call]] (plain "answer")
    (mkEvaluation true "fine") (plain "better").

(** ** Reading a turn

    [chat] is the candidate phase followed by the quality gate; the two
    halves are named so that statements can speak of the state between
    them. *)

Definition candidate (W : World) (fuel : nat) (message : string) (history : nat)
  : M (Response * Value) :=
  me <- get_self ;;
  h <- deref history ;;
  messages <- alloc ([Dict "system" (Str (system_prompt me))] ++ h
                     ++ [Dict "user" (Str message)]) ;;
  chat_loop W fuel 0 messages (Str message).

Definition quality_gate (W : World) (reply : option string) (message : Value) (history : nat)
  : M (option string) :=
  evaluation <- evaluate W reply message history ;;
  if is_acceptable evaluation then
    emit (Print "Passed evaluation - returning reply") ;;;
    ret reply
  else
    emit (Print "Failed evaluation - retrying") ;;;
    emit (Print (feedback evaluation)) ;;;
    rerun W reply message history (feedback evaluation).

(** The requests in a trace, by destination. *)
Definition is_primary (e : Event) : bool :=
  match e with Create openai _ _ _ => true | _ => false end.

Definition is_regeneration (e : Event) : bool :=
  match e with Create gemini _ _ _ => true | _ => false end.

Definition is_evaluation (e : Event) : bool :=
  match e with Parse _ _ _ => true | _ => false end.

Definition count (p : Event -> bool) (evs : list Event) : nat :=
  length (List.filter p evs).

(** The events tool dispatch can cause: a line on standard output, a
    notification, a call of an imported callable. *)
Definition tool_event (e : Event) : Prop :=
  match e with
  | Print _ | Post _ _ _ _ | Invoke _ _ => True
  | Create _ _ _ _ | Parse _ _ _ => False
  end.

(** The events of the candidate phase: those of tool dispatch and the
    requests to the primary endpoint, with the tools attached. *)
Definition candidate_event (e : Event) : Prop :=
  match e with
  | Create c model _ specs => c = openai /\ model = "gpt-4o-mini" /\ specs = Some tools
  | Parse _ _ _ => False
  | _ => True
  end.

(** A computation that only writes events: its outcome and the events it
    appends do not depend on the state it starts from. *)
Definition writer {A} (c : M A) : Prop :=
  exists (o : Outcome A) (evs : list Event),
    o <> OutOfFuel /\ Forall tool_event evs /\ forall st, c st = (o, log st evs).

(** [with_list st l ms]: the state [st] once the list at [l] holds [ms]. *)
Definition with_list (st : State) (l : nat) (ms : list Message) : State :=
  {| agent := agent st; store := <[l := ms]> (store st); trace := trace st |}.

(** The call [tool_call] of the batch [before ++ tool_call :: after]
    raises [e], having caused the events [evs], and the error ends the
    turn: dispatch of the batch raises and returns no result; when the
    calls before it are answered the error is [e] and nothing follows the
    events of the failing call; the loop raises without extending the
    message sequence or asking the model again; and [chat] raises. *)
Definition turn_aborts (W : World) (before : list ToolCall) (tool_call : ToolCall)
    (after : list ToolCall) (e : PyError) (evs : list Event) : Prop :=
  (forall st, dispatch W tool_call st = (Raised e, log st evs))
  /\ (forall st, exists e' st',
        handle_tool_call W (before ++ tool_call :: after) st = (Raised e', st'))
  /\ (forall st results st1,
        handle_tool_call W before st = (Returned results, st1) ->
        handle_tool_call W (before ++ tool_call :: after) st = (Raised e, log st1 evs))
  /\ (forall fuel round messages message st sent,
        store st !! messages = Some sent ->
        finish_reason (primary W round sent) = "tool_calls" ->
        tool_calls (resp_message (primary W round sent)) = before ++ tool_call :: after ->
        exists e' st',
          chat_loop W (S fuel) round messages message st = (Raised e', st')
          /\ store st' = store st
          /\ count is_primary (trace st') = count is_primary (trace st) + 1)
  /\ (forall fuel message history st h,
        store st !! history = Some h ->
        finish_reason
          (primary W 0 ([Dict "system" (Str (system_prompt (agent st)))] ++ h
                        ++ [Dict "user" (Str message)])) = "tool_calls" ->
        tool_calls
          (resp_message
             (primary W 0 ([Dict "system" (Str (system_prompt (agent st)))] ++ h
                           ++ [Dict "user" (Str message)]))) = before ++ tool_call :: after ->
        exists e' st', chat W (S fuel) message history st = (Raised e', st')).

(** The ids of the calls the results of a batch answer. *)
Definition answers (tool_call : ToolCall) (result : Message) : Prop :=
  exists body, result = ToolDict body (tc_id tool_call).

(** The calls dispatch can answer, read off the call and the world
    alone: the payload decodes, and the name is unbound or bound to a
    falsy object, or it is bound to a function of the module to whose
    parameters the decoded object binds, or to an imported callable that
    returns something [json.dumps] can write. *)
Definition answerable (W : World) (tool_call : ToolCall) : bool :=
  match json_loads W (tc_arguments tool_call) with
  | None => false
  | Some arguments =>
      match globals W !! tc_name tool_call with
      | None => true
      | Some tool =>
          negb (truthy tool)
          || match tool, arguments with
             | FunctionObj f, JObj kw => accepts f kw
             | ForeignCallable callee, JObj kw =>
                 match foreign_call W callee kw with
                 | Some (ForeignResult None) | None => false
                 | Some _ => true
                 end
             | _, _ => false
             end
      end
  end.

(** ** Vocabulary of the further properties *)

(** [starts_with s p]: the text [s] begins with [p]. *)
Definition starts_with (s p : string) : Prop := exists rest, s = p +:+ rest.

(** Keyword arguments that follow a tool declaration: every key is a
    declared property and every required property is given. *)
Definition conforms (spec : ToolSpec) (kw : Kwargs) : Prop :=
  (forall k v, In (k, v) kw -> In k (map fst (ts_properties spec)))
  /\ (forall k, In k (ts_required spec) -> exists v, kw_get k kw = Some v).

Definition is_print (e : Event) : bool :=
  match e with Print _ => true | _ => false end.

Definition is_post (e : Event) : bool :=
  match e with Post _ _ _ _ => true | _ => false end.

(** The message sequences sent to the primary endpoint, in order. *)
Fixpoint requests (evs : list Event) : list (list Message) :=
  match evs with
  | [] => []
  | Create openai _ messages _ :: rest => messages :: requests rest
  | _ :: rest => requests rest
  end.

(** Each sequence of the list extends the one before it, the first one
    extending [start]. *)
Fixpoint growing (start : list Message) (sequences : list (list Message)) : Prop :=
  match sequences with
  | [] => True
  | next :: rest => start `prefix_of` next /\ growing next rest
  end.

(** A tool round as it stands in a message sequence: the model's request
    followed by the results of its calls. *)
Definition round_block (block : ChatMessage * list Message) : list Message :=
  Completion (fst block) :: snd block.

(** The results of the round answer its calls one by one, in order. *)
Definition round_answered (block : ChatMessage * list Message) : Prop :=
  Forall2 answers (tool_calls (fst block)) (snd block).

(** [answered_rounds opening sequence]: the sequence is the opening
    messages followed by whole tool rounds, each of them answered. *)
Definition answered_rounds (opening sequence : list Message) : Prop :=
  exists blocks,
    sequence = opening ++ concat (map round_block blocks)
    /\ Forall round_answered blocks.

(** ** Basic facts *)

Lemma log_nil st : log st [] = st.
Proof. destruct st; unfold log; simpl. by rewrite app_nil_r. Qed.

Lemma log_log st evs1 evs2 : log (log st evs1) evs2 = log st (evs1 ++ evs2).
Proof. unfold log; simpl. by rewrite app_assoc. Qed.

Lemma count_app p evs1 evs2 : count p (evs1 ++ evs2) = count p evs1 + count p evs2.
Proof. unfold count. by rewrite List.filter_app, length_app. Qed.

Lemma count_none p evs : Forall (fun e => p e = false) evs -> count p evs = 0.
Proof.
  unfold count. induction 1 as [|e evs He _ IH]; simpl; [done|]. by rewrite He.
Qed.

Lemma tool_event_counts evs :
  Forall tool_event evs ->
  count is_primary evs = 0 /\ count is_regeneration evs = 0 /\ count is_evaluation evs = 0.
Proof.
  intros H. repeat split; apply count_none; eapply Forall_impl; try exact H;
    intros [] He; simpl in *; try done; destruct c; done.
Qed.

Lemma chat_split W fuel message history st :
  chat W fuel message history st
  = bind (candidate W fuel message history)
      (fun looped =>
         quality_gate W (content (resp_message (fst looped))) (snd looped) history) st.
Proof.
  unfold chat, candidate, quality_gate, bind, get_self.
  by destruct (deref history st) as [[h| |] st1].
Qed.

Lemma bind_run {A B} (c : M A) (k : A -> M B) st o st' :
  c st = (o, st') ->
  bind c k st
  = match o with
    | Returned a => k a st'
    | Raised e => (Raised e, st')
    | OutOfFuel => (OutOfFuel, st')
    end.
Proof. intros H. unfold bind. by rewrite H. Qed.

Lemma candidate_run W fuel message history st h :
  store st !! history = Some h ->
  candidate W fuel message history st
  = chat_loop W fuel 0 (length (store st)) (Str message)
      (snd (alloc ([Dict "system" (Str (system_prompt (agent st)))] ++ h
                   ++ [Dict "user" (Str message)]) st)).
Proof. intros Hh. unfold candidate, bind, get_self, deref. by rewrite Hh. Qed.

(** *** Writers *)

Lemma writer_ret {A} (a : A) : writer (ret a).
Proof.
  exists (Returned a), []. split; [done|]. split; [constructor|].
  intros st. by rewrite log_nil.
Qed.

Lemma writer_raise {A} e : writer (@raise A e).
Proof.
  exists (Raised e), []. split; [done|]. split; [constructor|].
  intros st. by rewrite log_nil.
Qed.

Lemma writer_emit e : tool_event e -> writer (emit e).
Proof. intros He. exists (Returned tt), [e]. split; [done|]. split; [by constructor|done]. Qed.

Lemma writer_bind {A B} (c : M A) (k : A -> M B) :
  writer c -> (forall a, writer (k a)) -> writer (bind c k).
Proof.
  intros (o & evs & Ho & Hevs & Hc) Hk. destruct o as [a|e|]; [| |done].
  - destruct (Hk a) as (o' & evs' & Ho' & Hevs' & Hka).
    exists o', (evs ++ evs'). split; [done|]. split; [by apply Forall_app|].
    intros st. unfold bind. by rewrite Hc, Hka, log_log.
  - exists (Raised e), evs. split; [done|]. split; [done|].
    intros st. unfold bind. by rewrite Hc.
Qed.

(** The combinators decide that a computation built from [ret], [raise],
    [emit] and [bind] by case analysis is a writer. *)
Ltac writer_cases :=
  repeat first
    [ apply writer_ret
    | apply writer_raise
    | apply writer_emit; exact I
    | apply writer_bind; [|intros ?]
    | match goal with
      | |- writer (match ?x with _ => _ end) => destruct x
      end ].

Create HintDb writer.

Lemma writer_push W text : writer (push W text).
Proof. unfold push. writer_cases. Qed.

#[local] Hint Resolve writer_push : writer.

Lemma writer_call_function W f kw : writer (call_function W f kw).
Proof.
  unfold call_function, record_user_details, record_unknown_question.
  destruct f; writer_cases; auto with writer.
Qed.

#[local] Hint Resolve writer_call_function : writer.

Lemma writer_call_object W tool arguments : writer (call_object W tool arguments).
Proof. unfold call_object. writer_cases; auto with writer. Qed.

Lemma writer_json_dumps r : writer (json_dumps r).
Proof. unfold json_dumps. writer_cases. Qed.

#[local] Hint Resolve writer_call_object writer_json_dumps : writer.

Lemma writer_dispatch W tool_call : writer (dispatch W tool_call).
Proof. unfold dispatch. writer_cases; auto with writer. Qed.

#[local] Hint Resolve writer_dispatch : writer.

Lemma writer_handle_loop W tool_calls results : writer (handle_loop W tool_calls results).
Proof.
  revert results. induction tool_calls as [|tc rest IH]; intros results; simpl;
    writer_cases; auto with writer.
Qed.

Lemma writer_handle_tool_call W tool_calls : writer (handle_tool_call W tool_calls).
Proof. apply writer_handle_loop. Qed.

(** ** The recording tools *)

(** C9.  Both tools return the fixed acknowledgement [{"recorded": "ok"}]
    for every argument, and all they do besides is one notification that
    carries the recorded text: the state after the call is the state
    before it with that single [Post] appended. *)
Theorem record_tools_acknowledge (W : World) (email question : JValue)
    (name notes : option JValue) (st : State) :
  record_user_details W email name notes st
  = (Returned Acknowledged,
     log st [Post "https://api.pushover.net/1/messages.json"
               (getenv W "PUSHOVER_TOKEN") (getenv W "PUSHOVER_USER")
               (JStr ("Recording " +:+ str_json W (default (JStr "Name not provided") name)
                      +:+ " with email " +:+ str_json W email
                      +:+ " and notes " +:+ str_json W (default (JStr "not provided") notes)))])
  /\ record_unknown_question W question st
     = (Returned Acknowledged,
        log st [Post "https://api.pushover.net/1/messages.json"
                  (getenv W "PUSHOVER_TOKEN") (getenv W "PUSHOVER_USER")
                  (JStr ("Recording " +:+ str_json W question))])
  /\ json_dumps Acknowledged st
     = (Returned ("{" +:+ quoted "recorded" +:+ ": " +:+ quoted "ok" +:+ "}"), st).
Proof.
  unfold record_user_details, record_unknown_question, push, json_dumps, bind, emit, ret.
  split; [reflexivity | split; reflexivity].
Qed.

(** ** Tool dispatch *)

Lemma dispatch_parsed W tool_call arguments st :
  json_loads W (tc_arguments tool_call) = Some arguments ->
  dispatch W tool_call st
  = bind (if truthy (default NoneObj (globals W !! tc_name tool_call))
          then call_object W (default NoneObj (globals W !! tc_name tool_call)) arguments
          else ret EmptyResult)
      (fun result => body <- json_dumps result ;; ret (ToolDict body (tc_id tool_call)))
      (log st [Print ("Tool called: " +:+ tc_name tool_call)]).
Proof. intros H. unfold dispatch. by rewrite H. Qed.

Lemma dispatch_unparsed W tool_call st :
  json_loads W (tc_arguments tool_call) = None ->
  dispatch W tool_call st = (Raised JSONDecodeError, st).
Proof. intros H. unfold dispatch. by rewrite H. Qed.

(** A call that returns has said something to the outside. *)
Lemma call_object_returns W tool arguments st r st' :
  call_object W tool arguments st = (Returned r, st') ->
  exists e evs, st' = log st (e :: evs).
Proof.
  destruct arguments as [| | | | | |kw]; simpl; try discriminate.
  destruct tool as [| | | | | |f|callee]; try discriminate.
  - unfold call_function. destruct (accepts f kw); [|discriminate].
    destruct f; (destruct (kw_get _ kw); [|discriminate]);
      intros [= <- <-]; eexists _, _; unfold log; simpl; by rewrite <- ?app_assoc.
  - unfold bind, emit. destruct (foreign_call W callee kw); [|discriminate].
    intros [= <- <-]. by eexists _, [].
Qed.

Lemma call_object_not_callable W tool arguments st :
  callable tool = false -> call_object W tool arguments st = (Raised TypeError, st).
Proof.
  intros H. destruct arguments; try done. by destruct tool.
Qed.

Lemma module_bindings_truthy g name :
  namespace_of_module g -> In name (map fst module_bindings) ->
  truthy (default NoneObj (g !! name)) = true.
Proof.
  intros Hg Hin. apply in_map_iff in Hin as ([k obj] & <- & Hin).
  unfold namespace_of_module in Hg. rewrite Forall_forall in Hg.
  apply list_elem_of_In in Hin. rewrite (Hg _ Hin). simpl.
  apply list_elem_of_In in Hin. simpl in Hin.
  repeat (destruct Hin as [[= <- <-]|Hin]; [done|]). done.
Qed.

(** C2 (as amended).  When the argument payload parses and the name is
    absent from the module's globals, or bound there to a falsy object,
    dispatch does not raise: it yields the result [{}] tagged with the
    call's id, and does nothing but print the tool's name. *)
Theorem unknown_tool_yields_empty_result (W : World) (tool_call : ToolCall)
    (arguments : JValue) (st : State) :
  json_loads W (tc_arguments tool_call) = Some arguments ->
  truthy (default NoneObj (globals W !! tc_name tool_call)) = false ->
  dispatch W tool_call st
  = (Returned (ToolDict "{}" (tc_id tool_call)),
     log st [Print ("Tool called: " +:+ tc_name tool_call)])
  /\ handle_tool_call W [tool_call] st
     = (Returned [ToolDict "{}" (tc_id tool_call)],
        log st [Print ("Tool called: " +:+ tc_name tool_call)]).
Proof.
  intros Hargs Htool.
  assert (dispatch W tool_call st
          = (Returned (ToolDict "{}" (tc_id tool_call)),
             log st [Print ("Tool called: " +:+ tc_name tool_call)])) as Hd.
  { rewrite (dispatch_parsed _ _ _ _ Hargs), Htool. reflexivity. }
  split; [exact Hd|].
  unfold handle_tool_call. simpl. unfold bind. rewrite Hd. reflexivity.
Qed.

Lemma unknown_tool_witness :
  dispatch world0 (mkToolCall "call_9" "no_such_tool" "{}") state0
  = (Returned (ToolDict "{}" "call_9"), log state0 [Print "Tool called: no_such_tool"])
  /\ handle_tool_call world0 [mkToolCall "call_9" "no_such_tool" "{}"] state0
     = (Returned [ToolDict "{}" "call_9"], log state0 [Print "Tool called: no_such_tool"]).
Proof.
  apply (unknown_tool_yields_empty_result world0
           (mkToolCall "call_9" "no_such_tool" "{}") (JObj []) state0);
    vm_compute; reflexivity.
Defined.

(** C2, as stated, fails.  [push] is neither of the two declared tools,
    yet a call naming it sends a notification and is answered with
    [null]; [tools] is neither, and a call naming it raises; and a call
    naming an unbound tool raises when its arguments are no JSON text. *)
Lemma undeclared_tool_counterexample :
  handle_tool_call world0 [mkToolCall "call_1" "push" (json_object1 "text" "hi")] state0
  = (Returned [ToolDict "null" "call_1"],
     log state0 [Print "Tool called: push";
                 Post "https://api.pushover.net/1/messages.json" None None (JStr "hi")])
  /\ handle_tool_call world0 [mkToolCall "call_2" "tools" "{}"] state0
     = (Raised TypeError, log state0 [Print "Tool called: tools"])
  /\ handle_tool_call world0 [mkToolCall "call_3" "no_such_tool" "oops"] state0
     = (Raised JSONDecodeError, state0).
Proof. split; [|split]; vm_compute; reflexivity. Qed.

(** C3 (as amended).  Dispatch resolves the name in the module's globals
    and not in a closed registry of the two declared tools.  Once the
    arguments have parsed, the empty-result fallback fires exactly when
    the name is absent from the globals or bound there to a falsy object;
    every name the file binds (its imports, functions, tables and classes)
    is bound to a truthy object, and a truthy object is called with the
    parsed arguments; when that object is not callable the call raises;
    and a call naming [push] sends the notification it is asked for. *)
Theorem dispatch_resolves_in_globals (W : World) (tool_call : ToolCall)
    (arguments : JValue) (st : State) :
  json_loads W (tc_arguments tool_call) = Some arguments ->
  let tool := default NoneObj (globals W !! tc_name tool_call) in
  let st1 := log st [Print ("Tool called: " +:+ tc_name tool_call)] in
  (truthy tool = false
   <-> dispatch W tool_call st = (Returned (ToolDict "{}" (tc_id tool_call)), st1))
  /\ (namespace_of_module (globals W) ->
      In (tc_name tool_call) (map fst module_bindings) -> truthy tool = true)
  /\ (truthy tool = true ->
      dispatch W tool_call st
      = bind (call_object W tool arguments)
          (fun result => body <- json_dumps result ;; ret (ToolDict body (tc_id tool_call)))
          st1)
  /\ (truthy tool = true -> callable tool = false ->
      dispatch W tool_call st = (Raised TypeError, st1))
  /\ (namespace_of_module (globals W) -> tc_name tool_call = "push" ->
      forall text, arguments = JObj [("text", text)] ->
      dispatch W tool_call st
      = (Returned (ToolDict "null" (tc_id tool_call)),
         log st1 [Post "https://api.pushover.net/1/messages.json"
                    (getenv W "PUSHOVER_TOKEN") (getenv W "PUSHOVER_USER") text])).
Proof.
  intros Hargs tool st1. pose proof (dispatch_parsed W tool_call arguments st Hargs) as Hd.
  fold tool in Hd. fold st1 in Hd.
  split; [split|split; [|split; [|split]]].
  - intros Hf. rewrite Hd, Hf. reflexivity.
  - intros Hr. destruct (truthy tool) eqn:Ht; [exfalso|done].
    rewrite Hd in Hr. unfold bind in Hr.
    destruct (call_object W tool arguments st1) as [[r|e|] st2] eqn:Hc; try discriminate.
    apply call_object_returns in Hc as (e & evs & ->).
    destruct (json_dumps r (log st1 (e :: evs))) as [[body|e'|] st3] eqn:Hj; try discriminate.
    assert (st3 = log st1 (e :: evs)) as ->.
    { destruct r as [| | |[text|]]; simpl in Hj; unfold ret, raise in Hj; congruence. }
    injection Hr as _ Hst. unfold st1, log in Hst. simpl in Hst.
    rewrite <- (app_nil_r (trace st ++ _)) in Hst at 2.
    apply app_inv_head in Hst. discriminate.
  - intros Hg Hin. by apply module_bindings_truthy.
  - intros Ht. rewrite Hd, Ht. reflexivity.
  - intros Ht Hc. rewrite Hd, Ht. unfold bind.
    by rewrite (call_object_not_callable W tool arguments st1 Hc).
  - intros Hg Hname text ->.
    assert (globals W !! tc_name tool_call = Some (FunctionObj fn_push)) as Hpush.
    { unfold namespace_of_module in Hg. rewrite Forall_forall in Hg. rewrite Hname.
      apply (Hg ("push", FunctionObj fn_push)). apply list_elem_of_In. simpl. tauto. }
    rewrite Hd. unfold tool. rewrite Hpush. reflexivity.
Qed.

Lemma dispatch_resolves_witness :
  dispatch world0 (mkToolCall "call_1" "push" (json_object1 "text" "hi")) state0
  = (Returned (ToolDict "null" "call_1"),
     log (log state0 [Print "Tool called: push"])
       [Post "https://api.pushover.net/1/messages.json" None None (JStr "hi")]).
Proof.
  refine (proj2 (proj2 (proj2 (proj2
            (dispatch_resolves_in_globals world0
               (mkToolCall "call_1" "push" (json_object1 "text" "hi"))
               (JObj [("text", JStr "hi")]) state0 _)))) _ _ (JStr "hi") _).
  - vm_compute; reflexivity.
  - unfold namespace_of_module. repeat constructor.
  - reflexivity.
  - reflexivity.
Defined.

(** C3, as stated, fails on a bound name whose value is falsy.  The
    namespace of the script binds [__doc__] to [None]: the name is present
    and its value is not callable, yet the fallback fires and nothing is
    raised. *)
Lemma falsy_global_counterexample :
  script_globals !! "__doc__" = Some NoneObj
  /\ callable NoneObj = false
  /\ dispatch world0 (mkToolCall "call_1" "__doc__" "{}") state0
     = (Returned (ToolDict "{}" "call_1"), log state0 [Print "Tool called: __doc__"]).
Proof. split; [|split]; vm_compute; reflexivity. Qed.

(** *** The batch *)

Lemma handle_loop_app W pre rest results st :
  handle_loop W (pre ++ rest) results st
  = bind (handle_loop W pre results) (fun rs => handle_loop W rest rs) st.
Proof.
  revert results st. induction pre as [|tc pre IH]; intros results st; simpl.
  - unfold bind, ret. done.
  - unfold bind. destruct (dispatch W tc st) as [[r|e|] st1]; [apply IH|done|done].
Qed.

Lemma handle_loop_answers W tool_calls results st rs st' :
  handle_loop W tool_calls results st = (Returned rs, st') ->
  exists new, rs = results ++ new /\ Forall2 answers tool_calls new.
Proof.
  revert results st. induction tool_calls as [|tc rest IH]; intros results st; simpl.
  - intros [= <- <-]. exists []. split; [by rewrite app_nil_r|constructor].
  - unfold bind. destruct (dispatch W tc st) as [[r|e|] st1] eqn:Hd; try discriminate.
    intros H. apply IH in H as (new & -> & Hnew).
    exists (r :: new). split; [by rewrite <- app_assoc|]. constructor; [|done].
    unfold dispatch, bind in Hd.
    destruct (json_loads W _); [|discriminate]. simpl in Hd.
    destruct (if truthy _ then _ else _) as [[result| |] ?]; try discriminate.
    destruct (json_dumps result _) as [[body| |] ?]; try discriminate.
    injection Hd as <- _. by exists body.
Qed.

Lemma handle_tool_call_frame W tool_calls st o st' :
  handle_tool_call W tool_calls st = (o, st') ->
  exists evs, st' = log st evs /\ Forall tool_event evs.
Proof.
  destruct (writer_handle_tool_call W tool_calls) as (o' & evs & _ & Hevs & H).
  rewrite H. intros [= _ <-]. by exists evs.
Qed.

Lemma handle_tool_call_total W tool_calls st st' :
  handle_tool_call W tool_calls st <> (OutOfFuel, st').
Proof.
  destruct (writer_handle_tool_call W tool_calls) as (o' & evs & Ho & _ & H).
  rewrite H. congruence.
Qed.

(** *** One round of the loop *)

Lemma chat_loop_dangling W fuel round messages message st :
  store st !! messages = None ->
  chat_loop W (S fuel) round messages message st = (Raised InvalidReference, st).
Proof. intros H. simpl. unfold bind, deref. by rewrite H. Qed.

Lemma chat_loop_plain W fuel round messages message st sent :
  store st !! messages = Some sent ->
  finish_reason (primary W round sent) <> "tool_calls" ->
  chat_loop W (S fuel) round messages message st
  = (Returned (primary W round sent, message),
     log st [Create openai "gpt-4o-mini" sent (Some tools)]).
Proof.
  intros Hsent Hplain. apply String.eqb_neq in Hplain.
  simpl. unfold bind at 1, deref. rewrite Hsent. unfold bind at 1, emit.
  by rewrite Hplain.
Qed.

Lemma chat_loop_tools_raise W fuel round messages message st sent e st2 :
  store st !! messages = Some sent ->
  finish_reason (primary W round sent) = "tool_calls" ->
  handle_tool_call W (tool_calls (resp_message (primary W round sent)))
    (log st [Create openai "gpt-4o-mini" sent (Some tools)]) = (Raised e, st2) ->
  chat_loop W (S fuel) round messages message st = (Raised e, st2).
Proof.
  intros Hsent Htools Hh. apply String.eqb_eq in Htools.
  simpl. unfold bind at 1, deref. rewrite Hsent. unfold bind at 1, emit.
  rewrite Htools. unfold bind at 1. by rewrite Hh.
Qed.

Lemma chat_loop_tool_round W fuel round messages message st sent results st2 :
  store st !! messages = Some sent ->
  finish_reason (primary W round sent) = "tool_calls" ->
  handle_tool_call W (tool_calls (resp_message (primary W round sent)))
    (log st [Create openai "gpt-4o-mini" sent (Some tools)]) = (Returned results, st2) ->
  chat_loop W (S fuel) round messages message st
  = chat_loop W fuel (S round) messages (MessageObj (resp_message (primary W round sent)))
      (with_list st2 messages
         (sent ++ Completion (resp_message (primary W round sent)) :: results)).
Proof.
  intros Hsent Htools Hh. apply String.eqb_eq in Htools.
  destruct (handle_tool_call_frame _ _ _ _ _ Hh) as (evs & -> & _).
  simpl. unfold bind at 1, deref. rewrite Hsent. unfold bind at 1, emit.
  rewrite Htools. unfold bind at 1. rewrite Hh.
  unfold bind at 1, extend. simpl. rewrite Hsent.
  unfold bind at 1. simpl.
  rewrite list_lookup_insert_eq by (by eapply lookup_lt_Some).
  rewrite list_insert_insert_eq, <- app_assoc. reflexivity.
Qed.

(** *** What the loop touches *)

Lemma tool_event_candidate evs : Forall tool_event evs -> Forall candidate_event evs.
Proof. intros H. eapply Forall_impl; [exact H|]. by intros []. Qed.

Lemma chat_loop_footprint W fuel round messages message st o st' :
  chat_loop W fuel round messages message st = (o, st') ->
  agent st' = agent st
  /\ length (store st') = length (store st)
  /\ (forall l, l <> messages -> store st' !! l = store st !! l)
  /\ exists evs, trace st' = trace st ++ evs /\ Forall candidate_event evs.
Proof.
  revert round message st. induction fuel as [|fuel IH]; intros round message st.
  { intros [= _ <-]. repeat split; try done. exists []. by rewrite app_nil_r. }
  destruct (store st !! messages) as [sent|] eqn:Hsent.
  2:{ rewrite chat_loop_dangling by done. intros [= _ <-].
      repeat split; try done. exists []. by rewrite app_nil_r. }
  destruct (String.eqb_spec (finish_reason (primary W round sent)) "tool_calls")
    as [Htools|Hplain].
  2:{ rewrite (chat_loop_plain _ _ _ _ _ _ _ Hsent Hplain). intros [= _ <-].
      repeat split; try done. eexists. split; [reflexivity|]. by repeat constructor. }
  destruct (handle_tool_call W (tool_calls (resp_message (primary W round sent)))
              (log st [Create openai "gpt-4o-mini" sent (Some tools)]))
    as [[results|e|] st2] eqn:Hh.
  - rewrite (chat_loop_tool_round _ _ _ _ _ _ _ _ _ Hsent Htools Hh).
    destruct (handle_tool_call_frame _ _ _ _ _ Hh) as (evs & -> & Hevs).
    intros H. apply IH in H as (Hagent & Hlen & Hstore & evs' & Htrace & Hevs').
    split; [done|]. split; [by rewrite Hlen; simpl; rewrite length_insert|].
    split.
    + intros l Hl. rewrite (Hstore l Hl). simpl. by rewrite list_lookup_insert_ne.
    + eexists. split.
      * rewrite Htrace. simpl. rewrite <- !app_assoc. reflexivity.
      * apply Forall_app. split; [by repeat constructor|].
        apply Forall_app. split; [by apply tool_event_candidate|done].
  - rewrite (chat_loop_tools_raise _ _ _ _ _ _ _ _ _ Hsent Htools Hh).
    destruct (handle_tool_call_frame _ _ _ _ _ Hh) as (evs & -> & Hevs).
    intros [= _ <-]. repeat split; try done. eexists. split.
    + simpl. rewrite <- app_assoc. reflexivity.
    + apply Forall_app. split; [by repeat constructor|by apply tool_event_candidate].
  - by apply handle_tool_call_total in Hh.
Qed.

Lemma candidate_event_counts evs :
  Forall candidate_event evs ->
  count is_regeneration evs = 0 /\ count is_evaluation evs = 0.
Proof.
  intros H. split; apply count_none; eapply Forall_impl; try exact H;
    intros [] He; simpl in *; try done. by destruct He as [-> _].
Qed.




(** The first thing a round does is to send the message sequence as it
    stands. *)
Lemma chat_loop_first_request W fuel round messages message st sent o st' :
  store st !! messages = Some sent ->
  chat_loop W (S fuel) round messages message st = (o, st') ->
  exists evs, trace st' = trace st ++ Create openai "gpt-4o-mini" sent (Some tools) :: evs.
Proof.
  intros Hsent.
  destruct (String.eqb_spec (finish_reason (primary W round sent)) "tool_calls")
    as [Htools|Hplain].
  2:{ rewrite (chat_loop_plain _ _ _ _ _ _ _ Hsent Hplain). intros [= _ <-]. by exists []. }
  destruct (handle_tool_call W (tool_calls (resp_message (primary W round sent)))
              (log st [Create openai "gpt-4o-mini" sent (Some tools)]))
    as [[results|e|] st2] eqn:Hh.
  - rewrite (chat_loop_tool_round _ _ _ _ _ _ _ _ _ Hsent Htools Hh).
    destruct (handle_tool_call_frame _ _ _ _ _ Hh) as (evs & -> & _).
    intros H. apply chat_loop_footprint in H as (_ & _ & _ & evs' & -> & _).
    exists (evs ++ evs'). simpl. by rewrite <- !app_assoc.
  - rewrite (chat_loop_tools_raise _ _ _ _ _ _ _ _ _ Hsent Htools Hh).
    destruct (handle_tool_call_frame _ _ _ _ _ Hh) as (evs & -> & _).
    intros [= _ <-]. exists evs. simpl. by rewrite <- app_assoc.
  - by apply handle_tool_call_total in Hh.
Qed.

(** ** The tool round trip *)

(** Whether a call is answered is decided by the call and the world, not
    by the state dispatch starts from. *)
Lemma dispatch_answerable W tool_call st :
  if answerable W tool_call
  then exists r st', dispatch W tool_call st = (Returned r, st')
  else exists e st', dispatch W tool_call st = (Raised e, st').
Proof.
  unfold answerable.
  destruct (json_loads W (tc_arguments tool_call)) as [arguments|] eqn:Hargs.
  2:{ rewrite (dispatch_unparsed _ _ _ Hargs). eauto. }
  rewrite (dispatch_parsed _ _ _ _ Hargs).
  destruct (globals W !! tc_name tool_call) as [tool|]; simpl; [|eauto].
  destruct tool as [|text|n|n|m|c|f|callee]; simpl; eauto.
  - destruct (String.eqb text ""); simpl; eauto.
    unfold bind. rewrite call_object_not_callable by done. eauto.
  - destruct (Nat.eqb n 0); simpl; eauto.
    unfold bind. rewrite call_object_not_callable by done. eauto.
  - destruct (Nat.eqb n 0); simpl; eauto.
    unfold bind. rewrite call_object_not_callable by done. eauto.
  - unfold bind. rewrite call_object_not_callable by done. eauto.
  - unfold bind. rewrite call_object_not_callable by done. eauto.
  - destruct arguments as [| | | | | |kw]; simpl; eauto.
    unfold bind at 1, call_function.
    destruct (accepts f kw) eqn:Hacc; [|eauto].
    unfold accepts in Hacc. apply andb_true_iff in Hacc as [_ Hreq].
    destruct f; simpl in Hreq; destruct (kw_get _ kw); try discriminate; eauto.
  - destruct arguments as [| | | | | |kw]; simpl; eauto.
    unfold bind, emit. destruct (foreign_call W callee kw) as [[| | |[body|]]|]; simpl; eauto.
Qed.

(** A batch returns exactly when each of its calls is answerable. *)
Lemma handle_loop_answerable W tool_calls results st :
  forallb (answerable W) tool_calls = true
  <-> exists rs st', handle_loop W tool_calls results st = (Returned rs, st').
Proof.
  revert results st. induction tool_calls as [|tc rest IH]; intros results st; simpl.
  { split; [eauto|done]. }
  pose proof (dispatch_answerable W tc st) as Hd.
  destruct (answerable W tc); simpl.
  - destruct Hd as (r & st1 & Hd). rewrite (bind_run _ _ _ _ _ Hd). apply IH.
  - destruct Hd as (e & st1 & Hd). rewrite (bind_run _ _ _ _ _ Hd).
    split; [done|]. by intros (rs & st' & [=]).
Qed.

(** C5 (as amended).  A response that asks for tool calls is answered in
    full or not at all.  The batch of its calls returns exactly when every
    call is answerable.  When it returns, there is exactly one result per
    call, in the order of the calls and tagged with the call's id; no
    model is invoked while they are produced; the model's request followed
    by all the results is appended to the message sequence; and the next
    invocation sends that extended sequence.  When some call is not
    answerable, dispatch raises: no result is produced for any call of the
    batch, the loop raises with the same error, the message sequence is
    left as it was, and no further invocation is made. *)
Theorem tool_round_trip (W : World) (fuel round messages : nat) (message : Value)
    (st : State) (sent : list Message) :
  store st !! messages = Some sent ->
  finish_reason (primary W round sent) = "tool_calls" ->
  let request := resp_message (primary W round sent) in
  let asked := log st [Create openai "gpt-4o-mini" sent (Some tools)] in
  (forallb (answerable W) (tool_calls request) = true
   <-> exists results st2,
         handle_tool_call W (tool_calls request) asked = (Returned results, st2))
  /\ (forall results st2,
        handle_tool_call W (tool_calls request) asked = (Returned results, st2) ->
        let extended := sent ++ Completion request :: results in
        Forall2 answers (tool_calls request) results
        /\ (exists evs, st2 = log asked evs /\ Forall tool_event evs)
        /\ chat_loop W (S fuel) round messages message st
           = chat_loop W fuel (S round) messages (MessageObj request)
               (with_list st2 messages extended)
        /\ store (with_list st2 messages extended) !! messages = Some extended
        /\ (forall o st',
              chat_loop W (S (S fuel)) round messages message st = (o, st') ->
              exists evs,
                trace st'
                = trace st2 ++ Create openai "gpt-4o-mini" extended (Some tools) :: evs))
  /\ (forallb (answerable W) (tool_calls request) = false ->
      exists e st2,
        handle_tool_call W (tool_calls request) asked = (Raised e, st2)
        /\ chat_loop W (S fuel) round messages message st = (Raised e, st2)
        /\ store st2 = store st
        /\ count is_primary (trace st2) = count is_primary (trace st) + 1).
Proof.
  intros Hsent Htools request asked.
  split; [apply handle_loop_answerable|]. split.
  - intros results st2 Hh extended.
    destruct (handle_tool_call_frame _ _ _ _ _ Hh) as (evs & Hst2 & Hevs).
    assert (store (with_list st2 messages extended) !! messages = Some extended) as Hext.
    { subst st2. simpl. apply list_lookup_insert_eq. by eapply lookup_lt_Some. }
    split; [|split; [|split; [|split]]].
    + unfold handle_tool_call in Hh. apply handle_loop_answers in Hh as (new & -> & Hnew).
      exact Hnew.
    + by exists evs.
    + by apply chat_loop_tool_round.
    + exact Hext.
    + intros o st'. rewrite (chat_loop_tool_round _ _ _ _ _ _ _ _ _ Hsent Htools Hh).
      intros H. by apply (chat_loop_first_request _ _ _ _ _ _ _ _ _ Hext) in H.
  - intros Hbad.
    destruct (handle_tool_call W (tool_calls request) asked) as [[results|e|] st2] eqn:Hh.
    + assert (forallb (answerable W) (tool_calls request) = true) as Hgood.
      { apply (handle_loop_answerable W (tool_calls request) [] asked). eauto. }
      congruence.
    + exists e, st2. split; [done|].
      split; [by apply (chat_loop_tools_raise _ _ _ _ _ _ _ _ _ Hsent Htools Hh)|].
      destruct (handle_tool_call_frame _ _ _ _ _ Hh) as (evs & -> & Hevs).
      split; [done|]. simpl. rewrite !count_app.
      destruct (tool_event_counts _ Hevs) as (-> & _). unfold count. simpl. lia.
    + by apply handle_tool_call_total in Hh.
Qed.

Lemma tool_round_trip_witness :
  handle_tool_call
    (scripted_world [tool_request [sample_call; mkToolCall "c2" "no_such_tool" "{}"]]
       (plain "answer") (mkEvaluation true "") (plain ""))
    [sample_call; mkToolCall "c2" "no_such_tool" "{}"]
    (log state0
       [Create openai "gpt-4o-mini"
          [Dict "user" (Str "hello"); Dict "assistant" (Str "hi")] (Some tools)])
  = (Returned [ToolDict (json_object1 "recorded" "ok") "c1"; ToolDict "{}" "c2"],
     log state0
       [Create openai "gpt-4o-mini"
          [Dict "user" (Str "hello"); Dict "assistant" (Str "hi")] (Some tools);
        Print "Tool called: record_unknown_question";
        Post "https://api.pushover.net/1/messages.json" None None (JStr "Recording age?");
        Print "Tool called: no_such_tool"])
  /\ Forall2 answers [sample_call; mkToolCall "c2" "no_such_tool" "{}"]
       [ToolDict (json_object1 "recorded" "ok") "c1"; ToolDict "{}" "c2"].
Proof.
  assert (handle_tool_call
            (scripted_world [tool_request [sample_call; mkToolCall "c2" "no_such_tool" "{}"]]
               (plain "answer") (mkEvaluation true "") (plain ""))
            [sample_call; mkToolCall "c2" "no_such_tool" "{}"]
            (log state0
               [Create openai "gpt-4o-mini"
                  [Dict "user" (Str "hello"); Dict "assistant" (Str "hi")] (Some tools)])
          = (Returned [ToolDict (json_object1 "recorded" "ok") "c1"; ToolDict "{}" "c2"],
             log state0
               [Create openai "gpt-4o-mini"
                  [Dict "user" (Str "hello"); Dict "assistant" (Str "hi")] (Some tools);
                Print "Tool called: record_unknown_question";
                Post "https://api.pushover.net/1/messages.json" None None
                  (JStr "Recording age?");
                Print "Tool called: no_such_tool"])) as Hrun.
  { vm_compute. reflexivity. }
  split; [exact Hrun|].
  exact (proj1 (proj1 (proj2
    (tool_round_trip
       (scripted_world [tool_request [sample_call; mkToolCall "c2" "no_such_tool" "{}"]]
          (plain "answer") (mkEvaluation true "") (plain ""))
       1 0 0 (Str "how old?") state0
       [Dict "user" (Str "hello"); Dict "assistant" (Str "hi")]
       eq_refl eq_refl)) _ _ Hrun)).
Defined.

(** C5, as stated, fails.  The model asks for two calls and the payload
    of the second does not decode: the first call is carried out (its
    notification is sent), yet the batch raises, so that no result is
    produced for either call, and the loop raises with the message
    sequence as it was. *)
Lemma unanswered_batch_counterexample :
  let W := scripted_world
             [tool_request [sample_call; mkToolCall "c2" "record_unknown_question" "oops"]]
             (plain "answer") (mkEvaluation true "") (plain "") in
  let sent := [Dict "user" (Str "hello"); Dict "assistant" (Str "hi")] in
  let events := [Create openai "gpt-4o-mini" sent (Some tools);
                 Print "Tool called: record_unknown_question";
                 Post "https://api.pushover.net/1/messages.json" None None
                   (JStr "Recording age?")] in
  finish_reason (primary W 0 sent) = "tool_calls"
  /\ tool_calls (resp_message (primary W 0 sent))
     = [sample_call; mkToolCall "c2" "record_unknown_question" "oops"]
  /\ handle_tool_call W (tool_calls (resp_message (primary W 0 sent)))
       (log state0 [Create openai "gpt-4o-mini" sent (Some tools)])
     = (Raised JSONDecodeError, log state0 events)
  /\ chat_loop W 5 0 0 (Str "how old?") state0 = (Raised JSONDecodeError, log state0 events)
  /\ store (log state0 events) !! 0 = Some sent.
Proof. vm_compute. repeat split. Qed.

(** ** Malformed arguments *)

Lemma raising_call_aborts W before tool_call after e evs :
  Forall tool_event evs ->
  (forall st, dispatch W tool_call st = (Raised e, log st evs)) ->
  turn_aborts W before tool_call after e evs.
Proof.
  intros Hevs Hbad.
  assert (forall s results st1,
            handle_tool_call W before s = (Returned results, st1) ->
            handle_tool_call W (before ++ tool_call :: after) s
            = (Raised e, log st1 evs)) as Hafter.
  { intros s results st1 Hpre. unfold handle_tool_call in *.
    rewrite handle_loop_app, (bind_run _ _ _ _ _ Hpre). simpl.
    by rewrite (bind_run _ _ _ _ _ (Hbad st1)). }
  assert (forall s, exists e' s',
            handle_tool_call W (before ++ tool_call :: after) s = (Raised e', s')) as Hraise.
  { intros s. destruct (handle_tool_call W before s) as [[results|e'|] s1] eqn:Hpre.
    - exists e, (log s1 evs). by eapply Hafter.
    - exists e', s1. unfold handle_tool_call in *.
      by rewrite handle_loop_app, (bind_run _ _ _ _ _ Hpre).
    - by apply handle_tool_call_total in Hpre. }
  assert (forall fuel round messages message s sent,
            store s !! messages = Some sent ->
            finish_reason (primary W round sent) = "tool_calls" ->
            tool_calls (resp_message (primary W round sent)) = before ++ tool_call :: after ->
            exists e' s',
              chat_loop W (S fuel) round messages message s = (Raised e', s')
              /\ store s' = store s
              /\ count is_primary (trace s') = count is_primary (trace s) + 1) as Hloop.
  { intros fuel round messages message s sent Hsent Htools Hcalls.
    destruct (Hraise (log s [Create openai "gpt-4o-mini" sent (Some tools)]))
      as (e' & s' & Hh).
    rewrite <- Hcalls in Hh. exists e', s'.
    rewrite (chat_loop_tools_raise _ _ _ _ _ _ _ _ _ Hsent Htools Hh).
    destruct (handle_tool_call_frame _ _ _ _ _ Hh) as (evs' & -> & Hevs').
    split; [done|]. split; [done|]. simpl. rewrite !count_app.
    destruct (tool_event_counts _ Hevs') as (-> & _). unfold count. simpl. lia. }
  split; [exact Hbad|]. split; [exact Hraise|]. split; [exact Hafter|].
  split; [exact Hloop|].
  intros fuel message history st h Hh Htools Hcalls.
  pose proof (candidate_run W (S fuel) message history st h Hh) as Hc.
  destruct (Hloop fuel 0 (length (store st)) (Str message)
              (snd (alloc ([Dict "system" (Str (system_prompt (agent st)))] ++ h
                           ++ [Dict "user" (Str message)]) st))
              ([Dict "system" (Str (system_prompt (agent st)))] ++ h
               ++ [Dict "user" (Str message)]))
    as (e' & s' & Hrun & _); [by apply list_lookup_middle|exact Htools|exact Hcalls|].
  rewrite Hrun in Hc. exists e', s'. by rewrite chat_split, (bind_run _ _ _ _ _ Hc).
Qed.

(** C8 (as amended).  A call whose argument payload does not parse makes
    dispatch raise the decoder's error before anything else is done for
    the call,
    and a call of a function of the module whose decoded arguments are no
    object, or an object that does not bind to the function's parameters,
    makes it raise TypeError once the tool's name is printed.  Either
    error ends the turn: no result is returned for that call or for any
    call of the batch, the calls behind it are not dispatched, the message
    sequence is not extended, and no further request is made. *)
Theorem malformed_arguments_abort (W : World) (before after : list ToolCall)
    (tool_call : ToolCall) :
  (json_loads W (tc_arguments tool_call) = None ->
   turn_aborts W before tool_call after JSONDecodeError [])
  /\ (forall f arguments,
        json_loads W (tc_arguments tool_call) = Some arguments ->
        globals W !! tc_name tool_call = Some (FunctionObj f) ->
        (forall kw, arguments = JObj kw -> accepts f kw = false) ->
        turn_aborts W before tool_call after TypeError
          [Print ("Tool called: " +:+ tc_name tool_call)]).
Proof.
  split.
  - intros Hbad. apply raising_call_aborts; [constructor|].
    intros st. by rewrite log_nil, dispatch_unparsed.
  - intros f arguments Hargs Hf Hshape. apply raising_call_aborts; [by repeat constructor|].
    intros st. rewrite (dispatch_parsed _ _ _ _ Hargs), Hf. simpl.
    destruct arguments as [| | | | | |kw]; try reflexivity.
    unfold bind. simpl. unfold call_function. by rewrite (Hshape kw eq_refl).
Qed.

Lemma malformed_arguments_witness :
  handle_tool_call world0
    ([mkToolCall "c1" "no_such_tool" "{}"]
     ++ mkToolCall "c2" "record_unknown_question" "{question: oops"
        :: [mkToolCall "c3" "record_unknown_question" (json_object1 "question" "x")])
    state0
  = (Raised JSONDecodeError, log (log state0 [Print "Tool called: no_such_tool"]) [])
  /\ handle_tool_call world0
       ([mkToolCall "c1" "no_such_tool" "{}"]
        ++ mkToolCall "c2" "record_unknown_question" (json_object1 "query" "x")
           :: [mkToolCall "c3" "record_unknown_question" (json_object1 "question" "x")])
       state0
     = (Raised TypeError,
        log (log state0 [Print "Tool called: no_such_tool"])
          [Print "Tool called: record_unknown_question"]).
Proof.
  split.
  - refine (proj1 (proj2 (proj2 (proj1
      (malformed_arguments_abort world0 [mkToolCall "c1" "no_such_tool" "{}"]
         [mkToolCall "c3" "record_unknown_question" (json_object1 "question" "x")]
         (mkToolCall "c2" "record_unknown_question" "{question: oops")) _)))
      state0 [ToolDict "{}" "c1"] (log state0 [Print "Tool called: no_such_tool"]) _).
    + vm_compute. reflexivity.
    + vm_compute. reflexivity.
  - refine (proj1 (proj2 (proj2 (proj2
      (malformed_arguments_abort world0 [mkToolCall "c1" "no_such_tool" "{}"]
         [mkToolCall "c3" "record_unknown_question" (json_object1 "question" "x")]
         (mkToolCall "c2" "record_unknown_question" (json_object1 "query" "x")))
      fn_record_unknown_question (JObj [("query", JStr "x")]) _ _ _)))
      state0 [ToolDict "{}" "c1"] (log state0 [Print "Tool called: no_such_tool"]) _).
    + vm_compute. reflexivity.
    + vm_compute. reflexivity.
    + intros kw [= <-]. reflexivity.
    + vm_compute. reflexivity.
Defined.

(** C8, as stated, fails.  A payload that decodes is never checked
    against the shape the tool declares.  An unbound name sent with a
    payload that is a list and no object is answered with the empty
    object; and the declared tool [record_unknown_question], sent a number
    where its declaration asks for a string, sends its notification and
    acknowledges.  Neither call raises. *)
Lemma unexpected_shape_counterexample :
  reference_json_loads "[1, 2]" = Some (JArr [JInt 1; JInt 2])
  /\ handle_tool_call world0 [mkToolCall "c1" "no_such_tool" "[1, 2]"] state0
     = (Returned [ToolDict "{}" "c1"], log state0 [Print "Tool called: no_such_tool"])
  /\ reference_json_loads ("{" +:+ quoted "question" +:+ ": 5}")
     = Some (JObj [("question", JInt 5)])
  /\ fst (handle_tool_call world0
            [mkToolCall "c1" "record_unknown_question" ("{" +:+ quoted "question" +:+ ": 5}")]
            state0)
     = Returned [ToolDict (json_object1 "recorded" "ok") "c1"]
  /\ count is_post
       (trace (snd (handle_tool_call world0
                      [mkToolCall "c1" "record_unknown_question"
                         ("{" +:+ quoted "question" +:+ ": 5}")]
                      state0))) = 1.
Proof. vm_compute. repeat split. Qed.

(** ** Termination of the loop *)



(** ** The quality gate *)

Lemma string_app_assoc (a b c : string) : (a +:+ b) +:+ c = a +:+ (b +:+ c).
Proof.
  induction a as [|x a IH]; [done|].
  change (String x ((a +:+ b) +:+ c) = String x (a +:+ (b +:+ c))). by rewrite IH.
Qed.

Lemma candidate_footprint W fuel message history st o st1 :
  candidate W fuel message history st = (o, st1) ->
  agent st1 = agent st
  /\ (forall l ms, store st !! l = Some ms -> store st1 !! l = Some ms)
  /\ exists evs, trace st1 = trace st ++ evs /\ Forall candidate_event evs.
Proof.
  unfold candidate, bind at 1, get_self, bind at 1, deref.
  destruct (store st !! history) as [h|] eqn:Hh.
  2:{ intros [= _ <-]. repeat split; try done. exists []. by rewrite app_nil_r. }
  unfold bind at 1, alloc. intros H.
  apply chat_loop_footprint in H as (Hagent & _ & Hstore & Htrace).
  split; [done|]. split; [|done].
  intros l ms Hl. rewrite Hstore.
  - simpl. by apply lookup_app_l_Some.
  - apply lookup_lt_Some in Hl. lia.
Qed.

Lemma evaluate_returns W reply message history st evaluation st' :
  evaluate W reply message history st = (Returned evaluation, st') ->
  exists h,
    store st !! history = Some h
    /\ evaluation
       = evaluator W ([Dict "system" (Str (evaluator_system_prompt (agent st)))]
                      ++ [Dict "user" (Str (evaluator_user_prompt W reply message h))])
    /\ st' = log st [Parse gemini "gemini-2.0-flash"
                       ([Dict "system" (Str (evaluator_system_prompt (agent st)))]
                        ++ [Dict "user" (Str (evaluator_user_prompt W reply message h))])].
Proof.
  unfold evaluate, bind at 1, get_self, bind at 1, deref.
  destruct (store st !! history) as [h|]; [|discriminate].
  intros [= <- <-]. by exists h.
Qed.

Lemma string_app_nil_r (s : string) : s +:+ "" = s.
Proof.
  induction s as [|x s IH]; [done|].
  change (String x (s +:+ "") = String x s). by rewrite IH.
Qed.

Lemma contains_here (sub : string) : contains sub sub.
Proof. exists "", "". by rewrite string_app_nil_r. Qed.

Lemma contains_app_l (s t sub : string) : contains s sub -> contains (s +:+ t) sub.
Proof.
  intros (before & after & ->). exists before, (after +:+ t).
  by rewrite !string_app_assoc.
Qed.

Lemma contains_app_r (s t sub : string) : contains t sub -> contains (s +:+ t) sub.
Proof.
  intros (before & after & ->). exists (s +:+ before), after.
  by rewrite !string_app_assoc.
Qed.

Lemma rerun_run W me reply message fb :
  exists prompt,
    contains prompt (str_reply reply)
    /\ contains prompt fb
    /\ forall st history h,
         agent st = me ->
         store st !! history = Some h ->
         rerun W reply message history fb st
         = (Returned (content (resp_message
                        (secondary W (Dict "system" (Str prompt) :: h ++ [Dict "user" message])))),
            log st [Create gemini "gemini-2.0-flash"
                      (Dict "system" (Str prompt) :: h ++ [Dict "user" message]) None]).
Proof.
  exists (((system_prompt me
            +:+ (nl +:+ nl +:+ "## Previous answer rejected" +:+ nl
                 +:+ "You just tried to reply, but the quality control rejected your reply"
                 +:+ nl))
           +:+ ("## Your attempted answer:" +:+ nl +:+ str_reply reply +:+ nl +:+ nl))
          +:+ ("## Reason for rejection:" +:+ nl +:+ fb +:+ nl +:+ nl)).
  split; [|split].
  - apply contains_app_l, contains_app_r, contains_app_r, contains_app_r, contains_app_l.
    apply contains_here.
  - apply contains_app_r, contains_app_r, contains_app_r, contains_app_l.
    apply contains_here.
  - intros st history h <- Hh.
    unfold rerun, bind at 1, get_self, bind at 1, deref. rewrite Hh. reflexivity.
Qed.

Lemma evaluate_run W reply message history st h :
  store st !! history = Some h ->
  evaluate W reply message history st
  = (Returned
       (evaluator W ([Dict "system" (Str (evaluator_system_prompt (agent st)))]
                     ++ [Dict "user" (Str (evaluator_user_prompt W reply message h))])),
     log st [Parse gemini "gemini-2.0-flash"
               ([Dict "system" (Str (evaluator_system_prompt (agent st)))]
                ++ [Dict "user" (Str (evaluator_user_prompt W reply message h))])]).
Proof.
  intros Hh. unfold evaluate, bind at 1, get_self, bind at 1, deref. by rewrite Hh.
Qed.

(** The gate is a function of the agent, the candidate reply, the value
    of [message] and the content of the history. *)
Lemma quality_gate_run W me reply mv h :
  exists r evs,
    forall st history,
      agent st = me ->
      store st !! history = Some h ->
      quality_gate W reply mv history st = (Returned r, log st evs).
Proof.
  destruct (is_acceptable
              (evaluator W ([Dict "system" (Str (evaluator_system_prompt me))]
                            ++ [Dict "user" (Str (evaluator_user_prompt W reply mv h))])))
    eqn:Hok.
  - do 2 eexists. intros st history Hme Hh.
    unfold quality_gate, bind at 1. rewrite (evaluate_run _ _ _ _ _ _ Hh), Hme, Hok.
    unfold bind, emit, ret. rewrite log_log. reflexivity.
  - destruct (rerun_run W me reply mv
                (feedback
                   (evaluator W ([Dict "system" (Str (evaluator_system_prompt me))]
                                 ++ [Dict "user" (Str (evaluator_user_prompt W reply mv h))]))))
      as (prompt & _ & _ & Hrun).
    do 2 eexists. intros st history Hme Hh.
    unfold quality_gate, bind at 1. rewrite (evaluate_run _ _ _ _ _ _ Hh), Hme, Hok.
    unfold bind at 1, emit, bind at 1.
    rewrite (Hrun _ history h) by done. rewrite !log_log. reflexivity.
Qed.

Lemma candidate_reads_history W fuel message history st looped st1 :
  candidate W fuel message history st = (Returned looped, st1) ->
  exists h, store st !! history = Some h /\ store st1 !! history = Some h.
Proof.
  intros H. pose proof (candidate_footprint _ _ _ _ _ _ _ H) as (_ & Hstore & _).
  unfold candidate, bind at 1, get_self, bind at 1, deref in H.
  destruct (store st !! history) as [h|] eqn:Hh; [|discriminate].
  exists h. split; [done|]. by apply Hstore.
Qed.

(** C6.  When the evaluation of the candidate reply says it is acceptable,
    [chat] returns the candidate reply itself, and the events of the turn
    hold one evaluation and no request to the regeneration endpoint. *)
Theorem accepted_reply_is_final (W : World) (fuel : nat) (message : string)
    (history : nat) (st : State) (response : Response) (mv : Value) (st1 : State)
    (evaluation : Evaluation) (st2 : State) :
  candidate W fuel message history st = (Returned (response, mv), st1) ->
  evaluate W (content (resp_message response)) mv history st1 = (Returned evaluation, st2) ->
  is_acceptable evaluation = true ->
  chat W fuel message history st
  = (Returned (content (resp_message response)),
     log st2 [Print "Passed evaluation - returning reply"])
  /\ exists evs,
       trace (log st2 [Print "Passed evaluation - returning reply"]) = trace st ++ evs
       /\ count is_regeneration evs = 0
       /\ count is_evaluation evs = 1.
Proof.
  intros Hc He Hok. split.
  - rewrite chat_split. unfold bind at 1. rewrite Hc. simpl.
    unfold quality_gate, bind at 1. rewrite He, Hok. reflexivity.
  - apply candidate_footprint in Hc as (_ & _ & evs & Htrace & Hevs).
    apply evaluate_returns in He as (h & _ & _ & ->).
    eexists. split.
    + simpl. rewrite Htrace, <- !app_assoc. reflexivity.
    + rewrite !count_app. destruct (candidate_event_counts _ Hevs) as (-> & ->).
      split; reflexivity.
Qed.

Lemma accepted_reply_witness :
  fst (chat world_accepting 5 "how old?" 0 state0) = Returned (Some "answer").
Proof.
  refine (f_equal fst (proj1
    (accepted_reply_is_final world_accepting 5 "how old?" 0 state0
       (plain "answer") (MessageObj (resp_message (tool_request [sample_call])))
       (snd (candidate world_accepting 5 "how old?" 0 state0))
       (mkEvaluation true "fine")
       (snd (evaluate world_accepting (Some "answer")
               (MessageObj (resp_message (tool_request [sample_call]))) 0
               (snd (candidate world_accepting 5 "how old?" 0 state0))))
       _ _ _))).
  - vm_compute. reflexivity.
  - vm_compute. reflexivity.
  - reflexivity.
Defined.

(** C4.  When the evaluation rejects the candidate reply with feedback
    [F], [chat] makes exactly one request to the regeneration endpoint,
    with no tools attached, whose system prompt contains the text of the
    rejected reply and [F]; it returns the content of that endpoint's
    answer, and the turn holds no evaluation but the one that rejected. *)
Theorem rejected_reply_regenerated_once (W : World) (fuel : nat) (message : string)
    (history : nat) (st : State) (response : Response) (mv : Value) (st1 : State)
    (evaluation : Evaluation) (st2 : State) :
  candidate W fuel message history st = (Returned (response, mv), st1) ->
  evaluate W (content (resp_message response)) mv history st1 = (Returned evaluation, st2) ->
  is_acceptable evaluation = false ->
  exists prompt h final,
    store st !! history = Some h
    /\ chat W fuel message history st
       = (Returned (content (resp_message
                      (secondary W (Dict "system" (Str prompt) :: h ++ [Dict "user" mv])))),
          final)
    /\ final
       = log st2 [Print "Failed evaluation - retrying"; Print (feedback evaluation);
                  Create gemini "gemini-2.0-flash"
                    (Dict "system" (Str prompt) :: h ++ [Dict "user" mv]) None]
    /\ contains prompt (str_reply (content (resp_message response)))
    /\ contains prompt (feedback evaluation)
    /\ exists evs,
         trace final = trace st ++ evs
         /\ count is_regeneration evs = 1
         /\ count is_evaluation evs = 1.
Proof.
  intros Hc He Hbad.
  destruct (candidate_reads_history _ _ _ _ _ _ _ Hc) as (h & Hh & Hh1).
  pose proof (candidate_footprint _ _ _ _ _ _ _ Hc) as (_ & _ & evs & Htrace & Hevs).
  pose proof (evaluate_returns _ _ _ _ _ _ _ He) as (h' & Hh' & _ & Hst2).
  assert (store (log (log st2 [Print "Failed evaluation - retrying"])
                   [Print (feedback evaluation)]) !! history = Some h) as Hh2.
  { subst st2. exact Hh1. }
  destruct (rerun_run W (agent st2) (content (resp_message response)) mv
              (feedback evaluation)) as (prompt & Hreply & Hfb & Hrun).
  specialize (Hrun (log (log st2 [Print "Failed evaluation - retrying"])
                     [Print (feedback evaluation)]) history h eq_refl Hh2).
  exists prompt, h. eexists. split; [exact Hh|]. split; [|split; [reflexivity|]].
  - rewrite chat_split. unfold bind at 1. rewrite Hc. simpl.
    unfold quality_gate, bind at 1. rewrite He, Hbad.
    unfold bind at 1, emit, bind at 1. rewrite Hrun. by rewrite !log_log.
  - split; [exact Hreply|]. split; [exact Hfb|].
    eexists. split.
    + subst st2. simpl. rewrite Htrace, <- !app_assoc. reflexivity.
    + rewrite !count_app. destruct (candidate_event_counts _ Hevs) as (-> & ->).
      split; reflexivity.
Qed.

Lemma rejected_reply_witness :
  fst (chat world_rejecting 5 "how old?" 0 state0) = Returned (Some "better").
Proof.
  destruct (rejected_reply_regenerated_once world_rejecting 5 "how old?" 0 state0
              (plain "answer") (MessageObj (resp_message (tool_request [sample_call])))
              (snd (candidate world_rejecting 5 "how old?" 0 state0))
              (mkEvaluation false "too terse")
              (snd (evaluate world_rejecting (Some "answer")
                      (MessageObj (resp_message (tool_request [sample_call]))) 0
                      (snd (candidate world_rejecting 5 "how old?" 0 state0)))))
    as (prompt & h & final & _ & Hrun & _).
  - vm_compute. reflexivity.
  - vm_compute. reflexivity.
  - reflexivity.
  - rewrite Hrun. reflexivity.
Defined.

(** ** What the evaluator is shown *)

(** Without a tool round the variable [message] still holds the caller's
    text when the loop ends. *)
Lemma plain_turn_keeps_message W fuel message history st h :
  store st !! history = Some h ->
  finish_reason
    (primary W 0 ([Dict "system" (Str (system_prompt (agent st)))] ++ h
                  ++ [Dict "user" (Str message)])) <> "tool_calls" ->
  exists response st1,
    candidate W (S fuel) message history st = (Returned (response, Str message), st1).
Proof.
  intros Hh Hplain. unfold candidate, bind at 1, get_self, bind at 1, deref. rewrite Hh.
  unfold bind at 1, alloc. erewrite chat_loop_plain; [by eauto| |exact Hplain].
  simpl. by apply list_lookup_middle.
Qed.

(** C1 (the code at the failing input).  In a turn with one tool round
    the loop has rebound [message] to the model's tool request.  The
    evaluator's prompt is then built from that object and not from the
    text the user sent, and the regeneration request carries the object as
    its user message. *)
Theorem evaluator_sees_rebound_message :
  candidate world_rejecting 5 "how old?" 0 state0
  = (Returned (plain "answer", MessageObj (resp_message (tool_request [sample_call]))),
     snd (candidate world_rejecting 5 "how old?" 0 state0))
  /\ List.filter is_evaluation (trace (snd (chat world_rejecting 5 "how old?" 0 state0)))
     = [Parse gemini "gemini-2.0-flash"
          [Dict "system" (Str (evaluator_system_prompt me0));
           Dict "user"
             (Str (evaluator_user_prompt world_rejecting (Some "answer")
                     (MessageObj (resp_message (tool_request [sample_call])))
                     [Dict "user" (Str "hello"); Dict "assistant" (Str "hi")]))]]
  /\ evaluator_user_prompt world_rejecting (Some "answer")
       (MessageObj (resp_message (tool_request [sample_call])))
       [Dict "user" (Str "hello"); Dict "assistant" (Str "hi")]
     <> evaluator_user_prompt world_rejecting (Some "answer") (Str "how old?")
          [Dict "user" (Str "hello"); Dict "assistant" (Str "hi")]
  /\ exists prompt,
       List.filter is_regeneration (trace (snd (chat world_rejecting 5 "how old?" 0 state0)))
       = [Create gemini "gemini-2.0-flash"
            ([Dict "system" (Str prompt); Dict "user" (Str "hello");
              Dict "assistant" (Str "hi")]
             ++ [Dict "user" (MessageObj (resp_message (tool_request [sample_call])))])
            None].
Proof.
  split; [vm_compute; reflexivity|].
  split; [vm_compute; reflexivity|].
  split; [vm_compute; discriminate|].
  eexists. vm_compute. reflexivity.
Qed.

(** ** What a turn depends on, and what it leaves behind *)

Lemma chat_loop_independent W fuel round m1 m2 message s1 s2 sent :
  agent s1 = agent s2 ->
  store s1 !! m1 = Some sent ->
  store s2 !! m2 = Some sent ->
  exists o evs s1' s2',
    chat_loop W fuel round m1 message s1 = (o, s1')
    /\ chat_loop W fuel round m2 message s2 = (o, s2')
    /\ trace s1' = trace s1 ++ evs
    /\ trace s2' = trace s2 ++ evs.
Proof.
  revert round message s1 s2 sent.
  induction fuel as [|fuel IH]; intros round message s1 s2 sent Hagent H1 H2.
  { exists OutOfFuel, [], s1, s2. by rewrite !app_nil_r. }
  destruct (String.eqb_spec (finish_reason (primary W round sent)) "tool_calls")
    as [Htools|Hplain].
  2:{ rewrite (chat_loop_plain _ _ _ _ _ _ _ H1 Hplain),
              (chat_loop_plain _ _ _ _ _ _ _ H2 Hplain). by do 4 eexists. }
  destruct (writer_handle_tool_call W (tool_calls (resp_message (primary W round sent))))
    as (o & evs & Ho & _ & Hw).
  destruct o as [results|e|]; [| |done].
  - rewrite (chat_loop_tool_round _ _ _ _ _ _ _ _ _ H1 Htools (Hw _)),
            (chat_loop_tool_round _ _ _ _ _ _ _ _ _ H2 Htools (Hw _)).
    edestruct (IH (S round) (MessageObj (resp_message (primary W round sent))))
      as (o & evs' & s1' & s2' & Hr1 & Hr2 & Ht1 & Ht2); cycle 3.
    + exists o, (Create openai "gpt-4o-mini" sent (Some tools) :: evs ++ evs'), s1', s2'.
      split; [exact Hr1|]. split; [exact Hr2|].
      rewrite Ht1, Ht2. simpl. by rewrite <- !app_assoc.
    + exact Hagent.
    + simpl. apply list_lookup_insert_eq. by eapply lookup_lt_Some.
    + simpl. apply list_lookup_insert_eq. by eapply lookup_lt_Some.
  - rewrite (chat_loop_tools_raise _ _ _ _ _ _ _ _ _ H1 Htools (Hw _)),
            (chat_loop_tools_raise _ _ _ _ _ _ _ _ _ H2 Htools (Hw _)).
    do 4 eexists. split; [reflexivity|]. split; [reflexivity|].
    simpl. by rewrite <- !app_assoc.
Qed.

Lemma chat_independent W fuel message history1 history2 s1 s2 h :
  agent s1 = agent s2 ->
  store s1 !! history1 = Some h ->
  store s2 !! history2 = Some h ->
  exists o evs s1' s2',
    chat W fuel message history1 s1 = (o, s1')
    /\ chat W fuel message history2 s2 = (o, s2')
    /\ trace s1' = trace s1 ++ evs
    /\ trace s2' = trace s2 ++ evs.
Proof.
  intros Hagent H1 H2.
  pose proof (candidate_run W fuel message _ _ _ H1) as Hc1.
  pose proof (candidate_run W fuel message _ _ _ H2) as Hc2.
  rewrite Hagent in Hc1.
  destruct (chat_loop_independent W fuel 0 (length (store s1)) (length (store s2))
              (Str message)
              (snd (alloc ([Dict "system" (Str (system_prompt (agent s2)))] ++ h
                           ++ [Dict "user" (Str message)]) s1))
              (snd (alloc ([Dict "system" (Str (system_prompt (agent s2)))] ++ h
                           ++ [Dict "user" (Str message)]) s2))
              ([Dict "system" (Str (system_prompt (agent s2)))] ++ h
               ++ [Dict "user" (Str message)]))
    as (o & evs & s1' & s2' & Hr1 & Hr2 & Ht1 & Ht2);
    [exact Hagent|by apply list_lookup_middle|by apply list_lookup_middle|].
  rewrite Hr1 in Hc1. rewrite Hr2 in Hc2.
  rewrite !chat_split, (bind_run _ _ _ _ _ Hc1), (bind_run _ _ _ _ _ Hc2).
  destruct o as [[response mv]|e|]; [|by exists (Raised e), evs, s1', s2'
                                      |by exists OutOfFuel, evs, s1', s2'].
  apply chat_loop_footprint in Hr1 as (Ha1 & _ & Hs1 & _).
  apply chat_loop_footprint in Hr2 as (Ha2 & _ & Hs2 & _).
  destruct (quality_gate_run W (agent s2) (content (resp_message response)) mv h)
    as (r & evs' & Hgate).
  simpl. rewrite (Hgate s1' history1), (Hgate s2' history2).
  - exists (Returned r), (evs ++ evs'), (log s1' evs'), (log s2' evs').
    simpl. rewrite Ht1, Ht2. simpl. by rewrite !app_assoc.
  - by rewrite Ha2.
  - rewrite Hs2; [by apply lookup_app_l_Some|]. apply lookup_lt_Some in H2. lia.
  - by rewrite Ha1.
  - rewrite Hs1; [by apply lookup_app_l_Some|]. apply lookup_lt_Some in H1. lia.
Qed.

Lemma chat_footprint W fuel message history st o st' :
  chat W fuel message history st = (o, st') ->
  agent st' = agent st
  /\ forall l ms, store st !! l = Some ms -> store st' !! l = Some ms.
Proof.
  rewrite chat_split. unfold bind at 1.
  destruct (candidate W fuel message history st) as [[looped|e|] st1] eqn:Hc;
    pose proof (candidate_footprint _ _ _ _ _ _ _ Hc) as (Hagent & Hstore & _).
  - destruct (candidate_reads_history _ _ _ _ _ _ _ Hc) as (h & _ & Hh).
    destruct (quality_gate_run W (agent st1) (content (resp_message (fst looped)))
                (snd looped) h) as (r & evs & Hgate).
    rewrite (Hgate st1 history eq_refl Hh). by intros [= _ <-].
  - by intros [= _ <-].
  - by intros [= _ <-].
Qed.

Lemma chat_first_request W fuel message history st h o st' :
  store st !! history = Some h ->
  chat W (S fuel) message history st = (o, st') ->
  exists evs,
    trace st'
    = trace st ++ Create openai "gpt-4o-mini"
                    ([Dict "system" (Str (system_prompt (agent st)))] ++ h
                     ++ [Dict "user" (Str message)]) (Some tools) :: evs.
Proof.
  intros Hh. rewrite chat_split.
  destruct (candidate W (S fuel) message history st) as [oc st1] eqn:Hc.
  rewrite (bind_run _ _ _ _ _ Hc).
  assert (exists evs,
            trace st1
            = trace st ++ Create openai "gpt-4o-mini"
                            ([Dict "system" (Str (system_prompt (agent st)))] ++ h
                             ++ [Dict "user" (Str message)]) (Some tools) :: evs)
    as (evs & Hevs).
  { pose proof Hc as Hc'. rewrite (candidate_run _ _ _ _ _ _ Hh) in Hc'.
    eapply chat_loop_first_request in Hc' as (evs & Hevs); [by exists evs|].
    by apply list_lookup_middle. }
  destruct oc as [looped|e|]; [|intros [= _ <-]; by exists evs
                               |intros [= _ <-]; by exists evs].
  destruct (candidate_reads_history _ _ _ _ _ _ _ Hc) as (h' & _ & Hh1).
  destruct (quality_gate_run W (agent st1) (content (resp_message (fst looped)))
              (snd looped) h') as (r & evs' & Hgate).
  rewrite (Hgate st1 history eq_refl Hh1). intros [= _ <-].
  exists (evs ++ evs'). simpl. rewrite Hevs. by rewrite <- app_assoc.
Qed.

(** C10.  The grounding context is fixed by the constructor and read-only
    afterwards: [chat], tool dispatch, evaluation and regeneration leave
    the agent object as it was.  A turn builds its message sequence anew,
    from the agent, the caller's history and the new message: its first
    request carries exactly that sequence, every list that existed before
    the turn (the caller's history among them) is unchanged after it, and
    two turns with the same agent, history content and message have the
    same outcome and cause the same events, whatever happened before. *)
Theorem grounding_context_is_read_only (W : World) (fuel : nat) (message : string)
    (history : nat) (tool_calls : list ToolCall) (reply : option string) (mv : Value)
    (fb : string) (pages : list (option string)) (summary_file : string) (st : State) :
  (name (Me_init pages summary_file) = "Arpan Bandyopadhyay"
   /\ summary (Me_init pages summary_file) = summary_file)
  /\ agent (snd (chat W fuel message history st)) = agent st
  /\ agent (snd (handle_tool_call W tool_calls st)) = agent st
  /\ agent (snd (evaluate W reply mv history st)) = agent st
  /\ agent (snd (rerun W reply mv history fb st)) = agent st
  /\ (forall l ms,
        store st !! l = Some ms ->
        store (snd (chat W fuel message history st)) !! l = Some ms)
  /\ (forall h,
        store st !! history = Some h ->
        exists evs,
          trace (snd (chat W (S fuel) message history st))
          = trace st ++ Create openai "gpt-4o-mini"
                          ([Dict "system" (Str (system_prompt (agent st)))] ++ h
                           ++ [Dict "user" (Str message)]) (Some tools) :: evs)
  /\ (forall st2 history2 h,
        agent st2 = agent st ->
        store st !! history = Some h ->
        store st2 !! history2 = Some h ->
        fst (chat W fuel message history st) = fst (chat W fuel message history2 st2)
        /\ exists evs,
             trace (snd (chat W fuel message history st)) = trace st ++ evs
             /\ trace (snd (chat W fuel message history2 st2)) = trace st2 ++ evs).
Proof.
  split; [done|]. split; [|split; [|split; [|split; [|split; [|split]]]]].
  - destruct (chat W fuel message history st) as [o st'] eqn:H.
    by apply chat_footprint in H as [? _].
  - destruct (handle_tool_call W tool_calls st) as [o st'] eqn:H.
    by apply handle_tool_call_frame in H as (evs & -> & _).
  - unfold evaluate, bind at 1, get_self, bind at 1, deref.
    by destruct (store st !! history).
  - unfold rerun, bind at 1, get_self, bind at 1, deref.
    by destruct (store st !! history).
  - intros l ms Hl. destruct (chat W fuel message history st) as [o st'] eqn:H.
    apply chat_footprint in H as [_ H]. by apply H.
  - intros h Hh. destruct (chat W (S fuel) message history st) as [o st'] eqn:H.
    by eapply chat_first_request.
  - intros st2 history2 h Hagent Hh Hh2.
    destruct (chat_independent W fuel message history history2 st st2 h)
      as (o & evs & s1' & s2' & -> & -> & Ht1 & Ht2); try done.
    split; [done|]. by exists evs.
Qed.

(** * Further properties of the program *)

(** ** Construction of the agent *)

Lemma fold_pages_acc (pages : list (option string)) (acc : string) :
  fold_left
    (fun acc text =>
       match text with
       | Some t => if String.eqb t "" then acc else acc +:+ t
       | None => acc
       end) pages acc
  = acc +:+ fold_left
              (fun acc text =>
                 match text with
                 | Some t => if String.eqb t "" then acc else acc +:+ t
                 | None => acc
                 end) pages "".
Proof.
  revert acc. induction pages as [|[t|] pages IH]; intros acc; simpl.
  - by rewrite string_app_nil_r.
  - destruct (String.eqb_spec t "") as [->|_]; [apply IH|].
    change ("" +:+ t) with t. rewrite (IH (acc +:+ t)), (IH t). apply string_app_assoc.
  - apply IH.
Qed.

(** X1.  The constructor reads the profile as the concatenation of the
    page texts in page order: a document without pages gives the empty
    text, a page without text (none, or the empty text) adds nothing, a
    page with text adds that text, and the profile of a document made of
    two parts is the profile of the first followed by that of the second.
    The name is fixed and the summary is the file's content. *)
Theorem profile_is_concatenation_of_pages (pages1 pages2 : list (option string))
    (t summary_file : string) :
  linkedin (Me_init [] summary_file) = ""
  /\ linkedin (Me_init [None] summary_file) = ""
  /\ linkedin (Me_init [Some ""] summary_file) = ""
  /\ linkedin (Me_init [Some t] summary_file) = t
  /\ linkedin (Me_init (pages1 ++ pages2) summary_file)
     = linkedin (Me_init pages1 summary_file) +:+ linkedin (Me_init pages2 summary_file)
  /\ name (Me_init (pages1 ++ pages2) summary_file) = name (Me_init [] "")
  /\ summary (Me_init (pages1 ++ pages2) summary_file) = summary_file.
Proof.
  split; [done|]. split; [done|]. split; [done|]. split.
  { simpl. by destruct (String.eqb_spec t "") as [->|_]. }
  split; [|done]. simpl. rewrite fold_left_app. apply fold_pages_acc.
Qed.

(** ** What the prompts carry *)

Lemma contains_heading (before heading value after : string) :
  contains (before +:+ heading +:+ nl +:+ value +:+ after) (heading +:+ nl +:+ value).
Proof.
  exists before, after. by rewrite (string_app_assoc heading), (string_app_assoc nl).
Qed.

Lemma starts_with_app (s p rest : string) : starts_with s p -> starts_with (s +:+ rest) p.
Proof. intros (r & ->). exists (r +:+ rest). apply string_app_assoc. Qed.

Lemma starts_with_contains (s p : string) : starts_with s p -> contains s p.
Proof. intros (r & ->). by exists "", r. Qed.

Lemma contains_trans (s t sub : string) : contains s t -> contains t sub -> contains s sub.
Proof.
  intros (a & b & ->) (c & d & ->). exists (a +:+ c), (d +:+ b).
  by rewrite !string_app_assoc.
Qed.

Lemma system_prompt_headings (me : Me) :
  contains (system_prompt me) ("## Summary:" +:+ nl +:+ summary me)
  /\ contains (system_prompt me) ("## LinkedIn Profile:" +:+ nl +:+ linkedin me).
Proof.
  unfold system_prompt. split.
  - apply contains_app_l, contains_app_r, contains_app_r. apply contains_heading.
  - apply contains_app_l, contains_app_r.
    do 6 apply contains_app_r. apply contains_heading.
Qed.

(** X2.  Both system prompts are grounded: the agent's prompt opens by
    naming the agent and the evaluator's prompt names the agent it judges;
    each puts the summary under the heading [## Summary:] and the profile
    under the heading [## LinkedIn Profile:]; and the agent's prompt names
    the two tools it declares. *)
Theorem prompts_carry_grounding_context (me : Me) :
  starts_with (system_prompt me) ("You are acting as " +:+ name me)
  /\ contains (system_prompt me) ("## Summary:" +:+ nl +:+ summary me)
  /\ contains (system_prompt me) ("## LinkedIn Profile:" +:+ nl +:+ linkedin me)
  /\ contains (system_prompt me) "record_unknown_question"
  /\ contains (system_prompt me) "record_user_details"
  /\ contains (evaluator_system_prompt me) ("The Agent is playing the role of " +:+ name me)
  /\ contains (evaluator_system_prompt me) ("## Summary:" +:+ nl +:+ summary me)
  /\ contains (evaluator_system_prompt me)
       ("## LinkedIn Profile:" +:+ nl +:+ linkedin me).
Proof.
  unfold system_prompt, evaluator_system_prompt.
  split; [|split; [|split; [|split; [|split; [|split; [|split]]]]]].
  - do 2 apply starts_with_app. eexists. reflexivity.
  - apply system_prompt_headings.
  - apply system_prompt_headings.
  - apply contains_app_l, contains_app_l. do 10 apply contains_app_r.
    exists "'s background and LinkedIn profile which you can use to answer questions. Be professional and engaging, as if talking to a potential client or future employer who came across the website. If you don't know the answer to any question, use your ",
      " tool to record the question that you couldn't answer, even if it's about something trivial or unrelated to career. If the user is engaging in discussion, try to steer them towards getting in touch via email; ask for their email and record it using your record_user_details tool. ".
    reflexivity.
  - apply contains_app_l, contains_app_l. do 10 apply contains_app_r.
    exists "'s background and LinkedIn profile which you can use to answer questions. Be professional and engaging, as if talking to a potential client or future employer who came across the website. If you don't know the answer to any question, use your record_unknown_question tool to record the question that you couldn't answer, even if it's about something trivial or unrelated to career. If the user is engaging in discussion, try to steer them towards getting in touch via email; ask for their email and record it using your ",
      " tool. ".
    reflexivity.
  - apply contains_app_l, contains_app_l.
    exists "You are an evaluator that decides whether a response to a question is acceptable.     You are provided with a conversation between a User and an Agent. Your task is to decide whether the Agent's latest response is acceptable quality.     ",
      (" and is representing " +:+ name me
       +:+ " on their website.     The Agent has been instructed to be professional and engaging, as if talking to a potential client or future employer who came across the website.     The Agent has been provided with context on "
       +:+ name me
       +:+ " in the form of their summary and LinkedIn details. Here's the information:").
    rewrite (string_app_assoc "The Agent is playing the role of " (name me)).
    rewrite <- (string_app_assoc _ "The Agent is playing the role of "). reflexivity.
  - apply contains_app_l, contains_app_r, contains_app_r. apply contains_heading.
  - apply contains_app_l, contains_app_r.
    do 6 apply contains_app_r. apply contains_heading.
Qed.

Lemma two_sections (p x n r y f t : string) :
  (p +:+ (x +:+ n +:+ r +:+ t)) +:+ (y +:+ n +:+ f +:+ t)
  = p +:+ (x +:+ n +:+ r) +:+ t +:+ (y +:+ n +:+ f) +:+ t.
Proof. by rewrite !string_app_assoc. Qed.

(** X3.  The regeneration request is the annotated system prompt, then
    the caller's history entry by entry, then the user message, and
    nothing else.  The annotated prompt begins with the whole of the
    agent's system prompt, so it carries the same grounding context, and
    it shows the rejected reply under its heading before the reason for
    the rejection under its own; a reply that is [None] is shown as the
    text [None]. *)
Theorem regeneration_request_shape (W : World) (reply : option string) (message : Value)
    (history : nat) (fb : string) (st : State) (h : list Message) :
  store st !! history = Some h ->
  exists prompt request,
    rerun W reply message history fb st
    = (Returned (content (resp_message (secondary W request))),
       log st [Create gemini "gemini-2.0-flash" request None])
    /\ request !! 0 = Some (Dict "system" (Str prompt))
    /\ (forall i, i < length h -> request !! (S i) = h !! i)
    /\ request !! (S (length h)) = Some (Dict "user" message)
    /\ length request = length h + 2
    /\ starts_with prompt (system_prompt (agent st))
    /\ contains prompt ("## Summary:" +:+ nl +:+ summary (agent st))
    /\ contains prompt ("## LinkedIn Profile:" +:+ nl +:+ linkedin (agent st))
    /\ (exists a b c,
          prompt = a +:+ ("## Your attempted answer:" +:+ nl +:+ str_reply reply) +:+ b
                   +:+ ("## Reason for rejection:" +:+ nl +:+ fb) +:+ c)
    /\ (reply = None -> contains prompt ("## Your attempted answer:" +:+ nl +:+ "None")).
Proof.
  intros Hh.
  exists (((system_prompt (agent st)
            +:+ (nl +:+ nl +:+ "## Previous answer rejected" +:+ nl
                 +:+ "You just tried to reply, but the quality control rejected your reply"
                 +:+ nl))
           +:+ ("## Your attempted answer:" +:+ nl +:+ str_reply reply +:+ nl +:+ nl))
          +:+ ("## Reason for rejection:" +:+ nl +:+ fb +:+ nl +:+ nl)).
  eexists. split.
  { unfold rerun, bind at 1, get_self, bind at 1, deref. rewrite Hh. reflexivity. }
  split; [done|]. split.
  { intros i Hi. simpl. by apply lookup_app_l. }
  split.
  { simpl. rewrite lookup_app_r by lia. by rewrite Nat.sub_diag. }
  split.
  { simpl. rewrite length_app. simpl. lia. }
  assert (forall sub, contains (system_prompt (agent st)) sub ->
            contains (((system_prompt (agent st)
                        +:+ (nl +:+ nl +:+ "## Previous answer rejected" +:+ nl
                             +:+ "You just tried to reply, but the quality control rejected your reply"
                             +:+ nl))
                       +:+ ("## Your attempted answer:" +:+ nl +:+ str_reply reply
                            +:+ nl +:+ nl))
                      +:+ ("## Reason for rejection:" +:+ nl +:+ fb +:+ nl +:+ nl)) sub)
    as Hsys.
  { intros sub Hsub. by apply contains_app_l, contains_app_l, contains_app_l. }
  pose proof (system_prompt_headings (agent st)) as (Hsum & Hli).
  split; [do 3 apply starts_with_app; exists ""; by rewrite string_app_nil_r|].
  split; [by apply Hsys|]. split; [by apply Hsys|]. split.
  - eexists _, (nl +:+ nl), (nl +:+ nl). apply two_sections.
  - intros ->. apply contains_app_l, contains_app_r.
    apply (contains_heading "" "## Your attempted answer:" "None" (nl +:+ nl)).
Qed.

Lemma regeneration_request_witness :
  fst (rerun world_rejecting (Some "answer") (Str "how old?") 0 "too terse" state0)
  = Returned (Some "better").
Proof.
  destruct (regeneration_request_shape world_rejecting (Some "answer") (Str "how old?") 0
              "too terse" state0 [Dict "user" (Str "hello"); Dict "assistant" (Str "hi")]
              eq_refl) as (prompt & request & Hrun & _).
  rewrite Hrun. reflexivity.
Defined.

(** ** The declared tools and the functions behind them *)

Lemma accepts_spec (f : ModuleFunction) (kw : Kwargs) :
  accepts f kw = true
  <-> (forall k v, In (k, v) kw -> In k (parameters f))
      /\ (forall k, In k (required f) -> exists v, kw_get k kw = Some v).
Proof.
  unfold accepts, kw_within. rewrite andb_true_iff, !forallb_forall. split.
  - intros [Hkeys Hreq]. split.
    + intros k v Hin. specialize (Hkeys _ Hin). apply existsb_exists in Hkeys.
      destruct Hkeys as (p & Hp & Heq). apply String.eqb_eq in Heq. simpl in Heq.
      by subst.
    + intros k Hk. specialize (Hreq _ Hk). destruct (kw_get k kw) as [v|]; [by exists v|done].
  - intros [Hkeys Hreq]. split.
    + intros [k v] Hin. apply existsb_exists. exists k. split; [by eapply Hkeys|].
      apply String.eqb_refl.
    + intros k Hk. by destruct (Hreq k Hk) as (v & ->).
Qed.

(** X5.  The declarations given to the model agree with the functions the
    dispatcher finds under the same names: each declared tool is bound to
    a function whose parameters are the declared properties and whose
    parameters without a default are the required ones.  Hence a call of
    a declared tool whose arguments follow its declaration is always
    answered with [{"recorded": "ok"}] after exactly one notification, and
    a call whose arguments do not follow it (an undeclared key, a missing
    required one) raises TypeError before any notification. *)
Theorem declared_tools_match_their_functions (W : World) (spec : ToolSpec)
    (tool_call : ToolCall) (kw : Kwargs) (st : State) :
  namespace_of_module (globals W) ->
  In spec tools ->
  tc_name tool_call = ts_name spec ->
  json_loads W (tc_arguments tool_call) = Some (JObj kw) ->
  exists f,
    globals W !! ts_name spec = Some (FunctionObj f)
    /\ parameters f = map fst (ts_properties spec)
    /\ required f = ts_required spec
    /\ (accepts f kw = true <-> conforms spec kw)
    /\ (conforms spec kw ->
        exists text,
          dispatch W tool_call st
          = (Returned (ToolDict ("{" +:+ quoted "recorded" +:+ ": " +:+ quoted "ok" +:+ "}")
                         (tc_id tool_call)),
             log st [Print ("Tool called: " +:+ tc_name tool_call);
                     Post "https://api.pushover.net/1/messages.json"
                       (getenv W "PUSHOVER_TOKEN") (getenv W "PUSHOVER_USER") (JStr text)]))
    /\ (~ conforms spec kw ->
        dispatch W tool_call st
        = (Raised TypeError, log st [Print ("Tool called: " +:+ tc_name tool_call)])).
Proof.
  intros Hg Hspec Hname Hargs.
  assert (exists f,
            globals W !! ts_name spec = Some (FunctionObj f)
            /\ parameters f = map fst (ts_properties spec)
            /\ required f = ts_required spec
            /\ f <> fn_push) as (f & Hf & Hpar & Hreq & Hnot_push).
  { unfold namespace_of_module in Hg. rewrite Forall_forall in Hg.
    destruct Hspec as [<-|[<-|[]]].
    - exists fn_record_user_details. split; [|done].
      apply (Hg ("record_user_details", FunctionObj fn_record_user_details)).
      apply list_elem_of_In. simpl. tauto.
    - exists fn_record_unknown_question. split; [|done].
      apply (Hg ("record_unknown_question", FunctionObj fn_record_unknown_question)).
      apply list_elem_of_In. simpl. tauto. }
  assert (accepts f kw = true <-> conforms spec kw) as Hiff.
  { rewrite accepts_spec. unfold conforms. by rewrite Hpar, Hreq. }
  exists f. split; [done|]. split; [done|]. split; [done|]. split; [done|].
  rewrite (dispatch_parsed _ _ _ _ Hargs), Hname, Hf. simpl. split.
  - intros Hok. pose proof (proj2 Hiff Hok) as Hacc.
    destruct Hok as [_ Hgiven]. rewrite <- Hreq in Hgiven.
    unfold bind at 1, call_function. rewrite Hacc.
    destruct f; [done| |].
    + destruct (Hgiven "email") as (v & ->); [simpl; tauto|].
      unfold record_user_details, push, bind, emit, ret, json_dumps.
      rewrite log_log. eexists. reflexivity.
    + destruct (Hgiven "question") as (v & ->); [simpl; tauto|].
      unfold record_unknown_question, push, bind, emit, ret, json_dumps.
      rewrite log_log. eexists. reflexivity.
  - intros Hbad. unfold bind at 1, call_function.
    destruct (accepts f kw) eqn:Hacc; [|done]. destruct Hbad. by apply Hiff.
Qed.

Lemma declared_tools_witness :
  exists text,
    dispatch world0
      (mkToolCall "c7" "record_user_details" (json_object1 "email" "ada@example.org")) state0
    = (Returned (ToolDict ("{" +:+ quoted "recorded" +:+ ": " +:+ quoted "ok" +:+ "}") "c7"),
       log state0 [Print "Tool called: record_user_details";
                   Post "https://api.pushover.net/1/messages.json" None None (JStr text)]).
Proof.
  destruct (declared_tools_match_their_functions world0 record_user_details_json
              (mkToolCall "c7" "record_user_details"
                 (json_object1 "email" "ada@example.org"))
              [("email", JStr "ada@example.org")] state0)
    as (f & _ & _ & _ & _ & Hok & _).
  - unfold namespace_of_module. repeat constructor.
  - simpl. tauto.
  - reflexivity.
  - vm_compute. reflexivity.
  - apply Hok. split.
    + intros k v [[= <- <-]|[]]. simpl. tauto.
    + intros k [<-|[]]. by eexists.
Defined.

(** ** Batches of tool calls *)

Lemma handle_loop_acc W tool_calls results st :
  handle_loop W tool_calls results st
  = match handle_loop W tool_calls [] st with
    | (Returned rs, st') => (Returned (results ++ rs), st')
    | other => other
    end.
Proof.
  revert results st. induction tool_calls as [|tc rest IH]; intros results st; simpl.
  - unfold ret. by rewrite app_nil_r.
  - unfold bind. destruct (dispatch W tc st) as [[r|e|] st1]; try done.
    rewrite (IH (results ++ [r])), (IH ([] ++ [r])).
    destruct (handle_loop W rest [] st1) as [[rs|e|] st2]; try done.
    by rewrite <- app_assoc.
Qed.

(** X6.  Dispatch of a batch is dispatch of its parts in sequence: the
    empty batch returns no result and does nothing, and a batch made of
    two parts returns the results of the first followed by those of the
    second, the second part being dispatched in the state the first one
    left; when a part raises, the whole batch raises with that error in
    the state reached. *)
Theorem batch_dispatch_composes (W : World) (batch1 batch2 : list ToolCall) (st : State) :
  handle_tool_call W [] st = (Returned [], st)
  /\ handle_tool_call W (batch1 ++ batch2) st
     = match handle_tool_call W batch1 st with
       | (Returned results1, st1) =>
           match handle_tool_call W batch2 st1 with
           | (Returned results2, st2) => (Returned (results1 ++ results2), st2)
           | other => other
           end
       | other => other
       end.
Proof.
  split; [done|]. unfold handle_tool_call. rewrite handle_loop_app. unfold bind.
  destruct (handle_loop W batch1 [] st) as [[results1|e|] st1]; try done.
  apply handle_loop_acc.
Qed.

Lemma count_none_filter p evs : count p evs = 0 -> List.filter p evs = [].
Proof. unfold count. by destruct (List.filter p evs). Qed.

Lemma call_object_step W tool arguments st o st' :
  call_object W tool arguments st = (o, st') ->
  st' = st
  \/ (exists url token user text, st' = log st [Post url token user text])
  \/ (exists callee kw, st' = log st [Invoke callee kw]).
Proof.
  destruct arguments as [| | | | | |kw]; simpl; try (intros [= _ <-]; by left).
  destruct tool as [| | | | | |f|callee]; try (intros [= _ <-]; by left).
  - unfold call_function. destruct (accepts f kw); [|intros [= _ <-]; by left].
    destruct f; (destruct (kw_get _ kw); [|intros [= _ <-]; by left]);
      intros [= _ <-]; right; left; by do 4 eexists.
  - unfold bind, emit. destruct (foreign_call W callee kw);
      intros [= _ <-]; right; right; by do 2 eexists.
Qed.

Lemma dispatch_step W tool_call st o st' :
  dispatch W tool_call st = (o, st') ->
  (o = Raised JSONDecodeError /\ st' = st)
  \/ exists rest,
       st' = log st (Print ("Tool called: " +:+ tc_name tool_call) :: rest)
       /\ count is_print rest = 0
       /\ count is_post rest <= 1.
Proof.
  destruct (json_loads W (tc_arguments tool_call)) as [arguments|] eqn:Hargs.
  2:{ rewrite (dispatch_unparsed _ _ _ Hargs). intros [= <- <-]. by left. }
  rewrite (dispatch_parsed _ _ _ _ Hargs). intros H. right.
  assert (exists oc rest,
            (if truthy (default NoneObj (globals W !! tc_name tool_call))
             then call_object W (default NoneObj (globals W !! tc_name tool_call)) arguments
             else ret EmptyResult)
              (log st [Print ("Tool called: " +:+ tc_name tool_call)])
            = (oc, log (log st [Print ("Tool called: " +:+ tc_name tool_call)]) rest)
            /\ count is_print rest = 0 /\ count is_post rest <= 1)
    as (oc & rest & Hcall & Hprint & Hpost).
  { destruct (truthy _).
    - destruct (call_object W _ arguments _) as [oc sc] eqn:Hc.
      apply call_object_step in Hc as [->|[(u & t & us & x & ->)|(c & k & ->)]].
      + exists oc, []. rewrite log_nil. repeat split. unfold count. simpl. lia.
      + exists oc, [Post u t us x]. repeat split. unfold count. simpl. lia.
      + exists oc, [Invoke c k]. repeat split. unfold count. simpl. lia.
    - exists (Returned EmptyResult), []. rewrite log_nil. repeat split.
      unfold count. simpl. lia. }
  rewrite (bind_run _ _ _ _ _ Hcall) in H. exists rest. split; [|done].
  rewrite log_log in H. simpl in H.
  destruct oc as [result|e|]; [|by injection H as _ <-|by injection H as _ <-].
  unfold bind in H. destruct result as [| | |[text|]]; by injection H as _ <-.
Qed.

(** X7.  Tool dispatch always comes to an end and speaks to the outside
    only by printing, notifying and calling imported callables: it never
    invokes a model and leaves the agent and the store alone.  It prints
    the name of each call it starts, in the order of the batch, and sends
    at most one notification per call started; when the batch is
    answered, every call was started and there are as many results as
    calls. *)
Theorem dispatch_log_follows_the_batch (W : World) (tool_calls : list ToolCall)
    (st : State) :
  exists evs,
    snd (handle_tool_call W tool_calls st) = log st evs
    /\ fst (handle_tool_call W tool_calls st) <> OutOfFuel
    /\ Forall tool_event evs
    /\ count is_post evs <= count is_print evs
    /\ (exists started,
          started `prefix_of` tool_calls
          /\ List.filter is_print evs
             = map (fun tc => Print ("Tool called: " +:+ tc_name tc)) started
          /\ forall results,
               fst (handle_tool_call W tool_calls st) = Returned results ->
               started = tool_calls /\ length results = length tool_calls).
Proof.
  assert (forall calls acc s,
            exists evs started,
              snd (handle_loop W calls acc s) = log s evs
              /\ count is_post evs <= count is_print evs
              /\ started `prefix_of` calls
              /\ List.filter is_print evs
                 = map (fun tc => Print ("Tool called: " +:+ tc_name tc)) started
              /\ forall results,
                   fst (handle_loop W calls acc s) = Returned results ->
                   started = calls /\ length results = length acc + length calls) as Hloop.
  { induction calls as [|tc rest IH]; intros acc s; simpl.
    - exists [], []. rewrite log_nil. split; [done|].
      split; [unfold count; simpl; lia|]. split; [done|]. split; [done|].
      intros results [= <-]. split; [done|]. lia.
    - unfold bind. destruct (dispatch W tc s) as [o s1] eqn:Hd.
      apply dispatch_step in Hd as [[-> ->]|(more & -> & Hprint & Hpost)].
      + exists [], []. rewrite log_nil. split; [done|].
        split; [unfold count; simpl; lia|]. split; [apply prefix_nil|]. split; [done|].
        intros results. discriminate.
      + destruct o as [r|e|].
        * destruct (IH (acc ++ [r]) (log s (Print ("Tool called: " +:+ tc_name tc) :: more)))
            as (evs & started & Hsnd & Hcount & Hpre & Hfilter & Hret).
          exists (Print ("Tool called: " +:+ tc_name tc) :: more ++ evs), (tc :: started).
          rewrite Hsnd, log_log. split; [done|]. split.
          { change (Print ?p :: more ++ evs) with ([Print p] ++ more ++ evs).
            rewrite !count_app, Hprint. unfold count at 1 4. simpl. lia. }
          split; [by apply prefix_cons|]. split.
          { simpl. rewrite List.filter_app, Hfilter.
            apply count_none_filter in Hprint. by rewrite Hprint. }
          intros results Hres. destruct (Hret results Hres) as [-> Hlen].
          split; [done|]. rewrite Hlen, length_app. simpl. lia.
        * exists (Print ("Tool called: " +:+ tc_name tc) :: more), [tc]. simpl.
          split; [done|]. split.
          { change (Print ?p :: more) with ([Print p] ++ more).
            rewrite !count_app, Hprint. unfold count at 1 3. simpl. lia. }
          split; [apply prefix_cons, prefix_nil|]. split; [|done].
          apply count_none_filter in Hprint. by rewrite Hprint.
        * exists (Print ("Tool called: " +:+ tc_name tc) :: more), [tc]. simpl.
          split; [done|]. split.
          { change (Print ?p :: more) with ([Print p] ++ more).
            rewrite !count_app, Hprint. unfold count at 1 3. simpl. lia. }
          split; [apply prefix_cons, prefix_nil|]. split; [|done].
          apply count_none_filter in Hprint. by rewrite Hprint. }
  destruct (Hloop tool_calls [] st) as (evs & started & Hsnd & Hcount & Hpre & Hfilter & Hret).
  exists evs. split; [exact Hsnd|]. split.
  { destruct (handle_tool_call W tool_calls st) as [o s'] eqn:H. simpl. intros ->.
    by apply handle_tool_call_total in H. }
  split.
  { destruct (handle_tool_call W tool_calls st) as [o s'] eqn:H.
    pose proof H as H'. unfold handle_tool_call in H'. rewrite H' in Hsnd. simpl in Hsnd.
    apply handle_tool_call_frame in H as (evs' & -> & Hevs').
    unfold log in Hsnd. injection Hsnd as Hsnd. apply app_inv_head in Hsnd. by subst. }
  split; [exact Hcount|]. exists started. split; [exact Hpre|]. split; [exact Hfilter|].
  intros results Hres. by destruct (Hret results Hres) as [-> ->].
Qed.

(** ** The quality gate, case by case *)

Lemma quality_gate_cases W reply mv history st :
  (store st !! history = None
   /\ quality_gate W reply mv history st = (Raised InvalidReference, st))
  \/ exists h,
       store st !! history = Some h
       /\ ((is_acceptable
              (evaluator W ([Dict "system" (Str (evaluator_system_prompt (agent st)))]
                            ++ [Dict "user" (Str (evaluator_user_prompt W reply mv h))]))
            = true
            /\ quality_gate W reply mv history st
               = (Returned reply,
                  log st [Parse gemini "gemini-2.0-flash"
                            ([Dict "system" (Str (evaluator_system_prompt (agent st)))]
                             ++ [Dict "user" (Str (evaluator_user_prompt W reply mv h))]);
                          Print "Passed evaluation - returning reply"]))
           \/ (is_acceptable
                 (evaluator W ([Dict "system" (Str (evaluator_system_prompt (agent st)))]
                               ++ [Dict "user" (Str (evaluator_user_prompt W reply mv h))]))
               = false
               /\ exists regenerated request fb,
                    quality_gate W reply mv history st
                    = (Returned regenerated,
                       log st [Parse gemini "gemini-2.0-flash"
                                 ([Dict "system" (Str (evaluator_system_prompt (agent st)))]
                                  ++ [Dict "user"
                                        (Str (evaluator_user_prompt W reply mv h))]);
                               Print "Failed evaluation - retrying";
                               Print fb;
                               Create gemini "gemini-2.0-flash" request None]))).
Proof.
  destruct (store st !! history) as [h|] eqn:Hh.
  2:{ left. split; [done|]. unfold quality_gate, bind at 1, evaluate, bind at 1, get_self,
        bind at 1, deref. by rewrite Hh. }
  right. exists h. split; [done|].
  destruct (is_acceptable
              (evaluator W ([Dict "system" (Str (evaluator_system_prompt (agent st)))]
                            ++ [Dict "user" (Str (evaluator_user_prompt W reply mv h))])))
    eqn:Hok; [left|right]; (split; [done|]).
  - unfold quality_gate, bind at 1. rewrite (evaluate_run _ _ _ _ _ _ Hh), Hok.
    unfold bind, emit, ret. by rewrite log_log.
  - destruct (rerun_run W (agent st) reply mv
                (feedback
                   (evaluator W ([Dict "system" (Str (evaluator_system_prompt (agent st)))]
                                 ++ [Dict "user" (Str (evaluator_user_prompt W reply mv h))]))))
      as (prompt & _ & _ & Hrun).
    do 3 eexists.
    unfold quality_gate, bind at 1. rewrite (evaluate_run _ _ _ _ _ _ Hh), Hok.
    unfold bind at 1, emit, bind at 1.
    rewrite (Hrun _ history h) by done. rewrite !log_log. reflexivity.
Qed.

(** ** The message sequence of a turn *)

Lemma requests_app evs1 evs2 : requests (evs1 ++ evs2) = requests evs1 ++ requests evs2.
Proof.
  induction evs1 as [|e evs1 IH]; [done|]. destruct e as [| |[] | |]; simpl; by rewrite IH.
Qed.

Lemma requests_tool_events evs : Forall tool_event evs -> requests evs = [].
Proof. induction 1 as [|[] evs He _ IH]; simpl in *; done. Qed.

Lemma growing_weaken s1 s2 sequences :
  s1 `prefix_of` s2 -> growing s2 sequences -> growing s1 sequences.
Proof.
  destruct sequences as [|next rest]; [done|]. intros H12 [H2 Hrest].
  split; [by etrans|done].
Qed.

Lemma chat_loop_requests_grow W fuel round messages message st sent o st' :
  store st !! messages = Some sent ->
  chat_loop W fuel round messages message st = (o, st') ->
  exists evs final,
    trace st' = trace st ++ evs
    /\ growing sent (requests evs)
    /\ store st' !! messages = Some final
    /\ sent `prefix_of` final
    /\ Forall (fun r => r `prefix_of` final) (requests evs)
    /\ (0 < fuel -> head (requests evs) = Some sent).
Proof.
  revert round message st sent. induction fuel as [|fuel IH]; intros round message st sent Hsent.
  { intros [= _ <-]. exists [], sent. rewrite app_nil_r. repeat split; try done. lia. }
  destruct (String.eqb_spec (finish_reason (primary W round sent)) "tool_calls")
    as [Htools|Hplain].
  2:{ rewrite (chat_loop_plain _ _ _ _ _ _ _ Hsent Hplain). intros [= _ <-].
      exists [Create openai "gpt-4o-mini" sent (Some tools)], sent. simpl.
      repeat split; try done. by constructor. }
  destruct (handle_tool_call W (tool_calls (resp_message (primary W round sent)))
              (log st [Create openai "gpt-4o-mini" sent (Some tools)]))
    as [[results|e|] st2] eqn:Hh.
  - rewrite (chat_loop_tool_round _ _ _ _ _ _ _ _ _ Hsent Htools Hh).
    destruct (handle_tool_call_frame _ _ _ _ _ Hh) as (tevs & -> & Htevs).
    intros H. eapply IH in H as (evs & final & Htrace & Hgrow & Hfinal & Hpre & Hall & _).
    2:{ simpl. apply list_lookup_insert_eq. by eapply lookup_lt_Some. }
    assert (sent `prefix_of` final) as Hsf.
    { etrans; [|exact Hpre]. by apply prefix_app_r. }
    exists (Create openai "gpt-4o-mini" sent (Some tools) :: tevs ++ evs), final.
    split; [rewrite Htrace; simpl; by rewrite <- !app_assoc|].
    simpl. rewrite requests_app, (requests_tool_events _ Htevs). simpl.
    split; [split; [done|]; eapply growing_weaken; [|exact Hgrow]; by apply prefix_app_r|].
    split; [done|]. split; [done|]. split; [by constructor|done].
  - rewrite (chat_loop_tools_raise _ _ _ _ _ _ _ _ _ Hsent Htools Hh).
    destruct (handle_tool_call_frame _ _ _ _ _ Hh) as (tevs & -> & Htevs).
    intros [= _ <-].
    exists (Create openai "gpt-4o-mini" sent (Some tools) :: tevs), sent.
    split; [simpl; by rewrite <- app_assoc|].
    simpl. rewrite (requests_tool_events _ Htevs).
    repeat split; try done. by constructor.
  - by apply handle_tool_call_total in Hh.
Qed.

Lemma growing_all_extend start sequences :
  growing start sequences -> Forall (fun r => start `prefix_of` r) sequences.
Proof.
  revert start. induction sequences as [|next rest IH]; intros start; [constructor|].
  intros [Hnext Hrest]. constructor; [done|].
  apply IH. by eapply growing_weaken.
Qed.

(** Where the phases of a turn meet: an evaluation or a regeneration
    that stands in the events of a turn stands in those of the gate. *)
Lemma gate_event_position evs1 evs2 pre e post :
  Forall candidate_event evs1 ->
  is_evaluation e || is_regeneration e = true ->
  evs1 ++ evs2 = pre ++ e :: post ->
  exists pre2, evs2 = pre2 ++ e :: post.
Proof.
  intros Hevs1 He Heq.
  apply List.app_eq_app in Heq as (l & [[-> Hl]|[-> Hl]]).
  - destruct l as [|e' l]; [by exists []|].
    simpl in Hl. injection Hl as <- _.
    apply Forall_app in Hevs1 as [_ Hl']. apply Forall_cons in Hl' as [He' _].
    destruct e as [| |c model ms specs| |]; simpl in *; try done.
    destruct He' as [-> _]. done.
  - by exists l.
Qed.

Lemma requests_after evs pre e post :
  requests evs = [] -> evs = pre ++ e :: post -> requests post = [].
Proof.
  intros Hnone ->. rewrite requests_app in Hnone.
  apply app_eq_nil in Hnone as [_ Hrest].
  destruct e as [| |[] model ms specs| |]; simpl in Hrest; done.
Qed.

(** X8.  During a turn the message sequence only grows.  The first
    request to the primary endpoint carries the system prompt, the
    caller's history and the user's message; every later request of the
    turn carries the sequence of the request before it, with more
    appended; so every request of the turn begins with those opening
    messages.  The evaluation and the regeneration add no request to the
    primary endpoint: what the turn does after the candidate phase holds
    no such request, and no such request follows an evaluation or a
    regeneration in the events of the turn. *)
Theorem message_sequence_only_grows (W : World) (fuel : nat) (message : string)
    (history : nat) (st : State) (h : list Message) :
  store st !! history = Some h ->
  let opening :=
    [Dict "system" (Str (system_prompt (agent st)))] ++ h ++ [Dict "user" (Str message)] in
  exists evs1 evs2,
    trace (snd (candidate W fuel message history st)) = trace st ++ evs1
    /\ trace (snd (chat W fuel message history st)) = trace st ++ evs1 ++ evs2
    /\ growing opening (requests (evs1 ++ evs2))
    /\ Forall (fun r => opening `prefix_of` r) (requests (evs1 ++ evs2))
    /\ (0 < fuel -> head (requests (evs1 ++ evs2)) = Some opening)
    /\ requests evs2 = []
    /\ count is_primary evs2 = 0
    /\ requests (evs1 ++ evs2) = requests evs1
    /\ (forall pre e post,
          evs1 ++ evs2 = pre ++ e :: post ->
          is_evaluation e || is_regeneration e = true ->
          requests post = [] /\ count is_primary post = 0).
Proof.
  intros Hh opening. rewrite chat_split.
  destruct (candidate W fuel message history st) as [oc st1] eqn:Hc.
  rewrite (bind_run _ _ _ _ _ Hc).
  pose proof (candidate_footprint _ _ _ _ _ _ _ Hc) as (_ & _ & evs0 & Htrace0 & Hevs0).
  pose proof Hc as Hc'. rewrite (candidate_run _ _ _ _ _ _ Hh) in Hc'.
  eapply chat_loop_requests_grow in Hc'
    as (evs & final & Htrace & Hgrow & _ & _ & _ & Hhead);
    [|by apply list_lookup_middle].
  simpl in Htrace.
  assert (evs0 = evs) as -> by (rewrite Htrace0 in Htrace; by apply app_inv_head in Htrace).
  assert (forall evs2,
            requests evs2 = [] -> count is_primary evs2 = 0 ->
            (forall pre e post, evs2 = pre ++ e :: post -> count is_primary post = 0) ->
            growing opening (requests (evs ++ evs2))
            /\ Forall (fun r => opening `prefix_of` r) (requests (evs ++ evs2))
            /\ (0 < fuel -> head (requests (evs ++ evs2)) = Some opening)
            /\ requests evs2 = []
            /\ count is_primary evs2 = 0
            /\ requests (evs ++ evs2) = requests evs
            /\ (forall pre e post,
                  evs ++ evs2 = pre ++ e :: post ->
                  is_evaluation e || is_regeneration e = true ->
                  requests post = [] /\ count is_primary post = 0)) as Hall.
  { intros evs2 Hnone Hcount Hsuffix.
    assert (requests (evs ++ evs2) = requests evs) as Hsame.
    { by rewrite requests_app, Hnone, app_nil_r. }
    rewrite Hsame.
    split; [done|]. split; [by apply growing_all_extend|]. split; [done|].
    split; [done|]. split; [done|]. split; [done|].
    intros pre e post Heq He.
    destruct (gate_event_position _ _ _ _ _ Hevs0 He Heq) as (pre2 & Hevs2).
    split; [by eapply requests_after|by eapply Hsuffix]. }
  exists evs.
  destruct oc as [looped|e|].
  - destruct (quality_gate_cases W (content (resp_message (fst looped))) (snd looped)
                history st1)
      as [[_ ->]|(h' & _ & [[_ ->]|(_ & regenerated & request & fb & ->)])].
    + exists []. simpl. split; [done|]. split; [by rewrite app_nil_r|].
      apply Hall; [done|done|]. by intros [|??] ???.
    + eexists. simpl. split; [done|].
      split; [rewrite Htrace, <- app_assoc; reflexivity|].
      apply Hall; [done|done|].
      intros pre e post Heq.
      destruct pre as [|? [|? [|??]]]; simplify_eq/=; done.
    + eexists. simpl. split; [done|].
      split; [rewrite Htrace, <- app_assoc; reflexivity|].
      apply Hall; [done|done|].
      intros pre e post Heq.
      destruct pre as [|? [|? [|? [|? [|??]]]]]; simplify_eq/=; done.
  - exists []. simpl. split; [done|]. split; [by rewrite app_nil_r|].
    apply Hall; [done|done|]. by intros [|??] ???.
  - exists []. simpl. split; [done|]. split; [by rewrite app_nil_r|].
    apply Hall; [done|done|]. by intros [|??] ???.
Qed.

Lemma message_sequence_witness :
  exists evs1 evs2,
    trace (snd (candidate world_rejecting 5 "how old?" 0 state0)) = trace state0 ++ evs1
    /\ trace (snd (chat world_rejecting 5 "how old?" 0 state0)) = trace state0 ++ evs1 ++ evs2
    /\ growing
         ([Dict "system" (Str (system_prompt (agent state0)))]
          ++ [Dict "user" (Str "hello"); Dict "assistant" (Str "hi")]
          ++ [Dict "user" (Str "how old?")]) (requests (evs1 ++ evs2))
    /\ requests evs2 = []
    /\ count is_primary evs2 = 0
    /\ requests (evs1 ++ evs2) = requests evs1.
Proof.
  destruct (message_sequence_only_grows world_rejecting 5 "how old?" 0 state0
              [Dict "user" (Str "hello"); Dict "assistant" (Str "hi")] eq_refl)
    as (evs1 & evs2 & Hc & Ht & Hgrow & _ & _ & Hnone & Hcount & Hsame & _).
  exists evs1, evs2.
  split; [exact Hc|]. split; [exact Ht|]. split; [exact Hgrow|].
  split; [exact Hnone|]. split; [exact Hcount|exact Hsame].
Defined.

(** ** The phases of a turn *)

(** X9.  A turn is a candidate phase followed by at most one pass through
    the quality gate.  The events of the candidate phase are tool events
    and requests to the primary endpoint; the gate sends no notification
    and asks the primary endpoint nothing.  Whatever the outcome, a turn
    holds at most one evaluation, and a regeneration only after an
    evaluation.  A turn returns only when its candidate phase returned,
    and then it holds exactly one evaluation; when the candidate phase
    raises, the turn raises the same error and the gate is not entered. *)
Theorem turn_has_one_pass_through_the_gate (W : World) (fuel : nat) (message : string)
    (history : nat) (st : State) (h : list Message) :
  store st !! history = Some h ->
  exists evs1 evs2,
    trace (snd (candidate W fuel message history st)) = trace st ++ evs1
    /\ trace (snd (chat W fuel message history st)) = trace st ++ evs1 ++ evs2
    /\ Forall candidate_event evs1
    /\ count is_post evs2 = 0
    /\ requests evs2 = []
    /\ count is_evaluation (evs1 ++ evs2) <= 1
    /\ count is_regeneration (evs1 ++ evs2) <= count is_evaluation (evs1 ++ evs2)
    /\ (forall pre e post,
          evs1 ++ evs2 = pre ++ e :: post ->
          is_regeneration e = true ->
          count is_evaluation pre = 1 /\ count is_evaluation post = 0)
    /\ (forall r,
          fst (chat W fuel message history st) = Returned r ->
          (exists looped, fst (candidate W fuel message history st) = Returned looped)
          /\ count is_evaluation (evs1 ++ evs2) = 1)
    /\ (forall e,
          fst (candidate W fuel message history st) = Raised e ->
          fst (chat W fuel message history st) = Raised e /\ evs2 = []).
Proof.
  intros Hh. rewrite chat_split.
  destruct (candidate W fuel message history st) as [oc st1] eqn:Hc.
  rewrite (bind_run _ _ _ _ _ Hc).
  pose proof (candidate_footprint _ _ _ _ _ _ _ Hc) as (_ & Hstore & evs1 & Htrace & Hevs1).
  destruct (candidate_event_counts _ Hevs1) as (Hregen & Heval).
  exists evs1.
  assert (forall pre e post,
            evs1 ++ [] = pre ++ e :: post -> is_regeneration e = true ->
            count is_evaluation pre = 1 /\ count is_evaluation post = 0) as Hnogate.
  { intros pre e post Heq He.
    destruct (gate_event_position evs1 [] pre e post Hevs1) as (pre2 & Hnil);
      [by rewrite He, orb_true_r|done|].
    by destruct pre2. }
  destruct oc as [looped|e|].
  - destruct (quality_gate_cases W (content (resp_message (fst looped))) (snd looped)
                history st1)
      as [[Hnone _]|(h' & _ & [[_ ->]|(_ & regenerated & request & fb & ->)])].
    + by rewrite (Hstore _ _ Hh) in Hnone.
    + eexists. simpl. split; [done|].
      split; [rewrite Htrace, <- app_assoc; reflexivity|].
      split; [done|]. split; [done|]. split; [done|].
      rewrite !count_app, Hregen, Heval. unfold count at 1 2 3. simpl.
      split; [lia|]. split; [lia|]. split; [|split; [|done]].
      * intros pre e post Heq He.
        destruct (gate_event_position _ _ _ _ _ Hevs1 (eq_trans (f_equal _ He) (orb_true_r _)) Heq)
          as (pre2 & Hevs2).
        destruct pre2 as [|? [|? [|??]]]; simplify_eq/=; done.
      * intros r _. split; [eauto|]. unfold count. simpl. lia.
    + eexists. simpl. split; [done|].
      split; [rewrite Htrace, <- app_assoc; reflexivity|].
      split; [done|]. split; [done|]. split; [done|].
      rewrite !count_app, Hregen, Heval. unfold count at 1 2 3. simpl.
      split; [lia|]. split; [lia|]. split; [|split; [|done]].
      * intros pre e post Heq He.
        destruct (gate_event_position _ _ _ _ _ Hevs1 (eq_trans (f_equal _ He) (orb_true_r _)) Heq)
          as (pre2 & Hevs2).
        destruct pre2 as [|? [|? [|? [|? [|??]]]]]; simplify_eq/=; try done.
        lazymatch type of Heq with
        | _ ++ [?a; ?b; ?c; ?d] = _ =>
            change (evs1 ++ ([a; b; c] ++ [d]) = pre ++ [d]) in Heq
        end.
        rewrite app_assoc in Heq. apply app_inv_tail in Heq as <-.
        rewrite count_app, Heval. by unfold count.
      * intros r _. split; [eauto|]. unfold count. simpl. lia.
  - exists []. simpl. split; [done|]. split; [by rewrite app_nil_r|].
    split; [done|]. split; [done|]. split; [done|].
    rewrite app_nil_r, Hregen, Heval.
    split; [lia|]. split; [lia|]. split; [by rewrite <- (app_nil_r evs1)|].
    split; [intros r; discriminate|]. by intros e0 [= ->].
  - exists []. simpl. split; [done|]. split; [by rewrite app_nil_r|].
    split; [done|]. split; [done|]. split; [done|].
    rewrite app_nil_r, Hregen, Heval.
    split; [lia|]. split; [lia|]. split; [by rewrite <- (app_nil_r evs1)|].
    split; [intros r; discriminate|]. intros e0; discriminate.
Qed.

Lemma turn_gate_witness :
  exists evs1 evs2,
    trace (snd (candidate world_rejecting 5 "how old?" 0 state0)) = trace state0 ++ evs1
    /\ trace (snd (chat world_rejecting 5 "how old?" 0 state0)) = trace state0 ++ evs1 ++ evs2
    /\ count is_evaluation (evs1 ++ evs2) = 1.
Proof.
  destruct (turn_has_one_pass_through_the_gate world_rejecting 5 "how old?" 0 state0
              [Dict "user" (Str "hello"); Dict "assistant" (Str "hi")] eq_refl)
    as (evs1 & evs2 & Hc & Htrace & _ & _ & _ & _ & _ & _ & Hone & _).
  exists evs1, evs2. split; [exact Hc|]. split; [exact Htrace|].
  apply (Hone (Some "better")). vm_compute. reflexivity.
Defined.

(** ** Tool rounds in the message sequence *)

Lemma chat_loop_rounds_answered W fuel round messages message st opening sent o st' :
  store st !! messages = Some sent ->
  answered_rounds opening sent ->
  chat_loop W fuel round messages message st = (o, st') ->
  exists evs final,
    trace st' = trace st ++ evs
    /\ Forall (answered_rounds opening) (requests evs)
    /\ store st' !! messages = Some final
    /\ answered_rounds opening final.
Proof.
  revert round message st sent.
  induction fuel as [|fuel IH]; intros round message st sent Hsent Hrounds.
  { intros [= _ <-]. exists [], sent. rewrite app_nil_r. by repeat split. }
  destruct (String.eqb_spec (finish_reason (primary W round sent)) "tool_calls")
    as [Htools|Hplain].
  2:{ rewrite (chat_loop_plain _ _ _ _ _ _ _ Hsent Hplain). intros [= _ <-].
      exists [Create openai "gpt-4o-mini" sent (Some tools)], sent. simpl.
      split; [done|]. split; [by constructor|done]. }
  destruct (handle_tool_call W (tool_calls (resp_message (primary W round sent)))
              (log st [Create openai "gpt-4o-mini" sent (Some tools)]))
    as [[results|e|] st2] eqn:Hh.
  - rewrite (chat_loop_tool_round _ _ _ _ _ _ _ _ _ Hsent Htools Hh).
    destruct (handle_tool_call_frame _ _ _ _ _ Hh) as (tevs & -> & Htevs).
    assert (answered_rounds opening
              (sent ++ Completion (resp_message (primary W round sent)) :: results))
      as Hnext.
    { destruct Hrounds as (blocks & Hsent_eq & Hblocks).
      exists (blocks ++ [(resp_message (primary W round sent), results)]). split.
      - rewrite map_app, concat_app. simpl. rewrite app_nil_r, app_assoc.
        by rewrite <- Hsent_eq.
      - apply Forall_app. split; [done|]. constructor; [|constructor].
        unfold round_answered. simpl.
        unfold handle_tool_call in Hh. by apply handle_loop_answers in Hh as (new & -> & ?). }
    intros H. eapply IH in H as (evs & final & Htrace & Hall & Hfinal & Hfin);
      [|simpl; apply list_lookup_insert_eq; by eapply lookup_lt_Some|exact Hnext].
    exists (Create openai "gpt-4o-mini" sent (Some tools) :: tevs ++ evs), final.
    split; [rewrite Htrace; simpl; by rewrite <- !app_assoc|].
    simpl. rewrite requests_app, (requests_tool_events _ Htevs). simpl.
    split; [by constructor|done].
  - rewrite (chat_loop_tools_raise _ _ _ _ _ _ _ _ _ Hsent Htools Hh).
    destruct (handle_tool_call_frame _ _ _ _ _ Hh) as (tevs & -> & Htevs).
    intros [= _ <-].
    exists (Create openai "gpt-4o-mini" sent (Some tools) :: tevs), sent.
    split; [simpl; by rewrite <- app_assoc|].
    simpl. rewrite (requests_tool_events _ Htevs).
    split; [by constructor|done].
  - by apply handle_tool_call_total in Hh.
Qed.

(** X11.  Every sequence sent to the primary endpoint during a turn is
    well formed: after the opening messages (system prompt, history, user
    message) it consists of whole tool rounds, each the model's request
    followed by exactly one result per call of that request, in the order
    of the calls and with their ids.  No request is sent with a tool call
    left unanswered, and a round whose dispatch raised leaves nothing in
    the sequence. *)
Theorem requests_hold_only_answered_rounds (W : World) (fuel : nat) (message : string)
    (history : nat) (st : State) (h : list Message) :
  store st !! history = Some h ->
  exists evs,
    trace (snd (chat W fuel message history st)) = trace st ++ evs
    /\ Forall
         (answered_rounds
            ([Dict "system" (Str (system_prompt (agent st)))] ++ h
             ++ [Dict "user" (Str message)]))
         (requests evs).
Proof.
  intros Hh. rewrite chat_split.
  destruct (candidate W fuel message history st) as [oc st1] eqn:Hc.
  rewrite (bind_run _ _ _ _ _ Hc).
  pose proof Hc as Hc'. rewrite (candidate_run _ _ _ _ _ _ Hh) in Hc'.
  eapply (chat_loop_rounds_answered _ _ _ _ _ _
            ([Dict "system" (Str (system_prompt (agent st)))] ++ h
             ++ [Dict "user" (Str message)])) in Hc'
    as (evs & final & Htrace & Hall & _ & _);
    [|by apply list_lookup_middle|exists []; simpl; by rewrite app_nil_r].
  simpl in Htrace.
  destruct oc as [looped|e|]; [|by exists evs|by exists evs].
  destruct (quality_gate_cases W (content (resp_message (fst looped))) (snd looped)
              history st1)
    as [[_ ->]|(h' & _ & [[_ ->]|(_ & regenerated & request & fb & ->)])].
  - by exists evs.
  - eexists. split; [simpl; rewrite Htrace, <- app_assoc; reflexivity|].
    rewrite requests_app. simpl. by rewrite app_nil_r.
  - eexists. split; [simpl; rewrite Htrace, <- app_assoc; reflexivity|].
    rewrite requests_app. simpl. by rewrite app_nil_r.
Qed.

Lemma answered_rounds_witness :
  exists evs,
    trace (snd (chat world_rejecting 5 "how old?" 0 state0)) = trace state0 ++ evs
    /\ Forall
         (answered_rounds
            ([Dict "system" (Str (system_prompt (agent state0)))]
             ++ [Dict "user" (Str "hello"); Dict "assistant" (Str "hi")]
             ++ [Dict "user" (Str "how old?")]))
         (requests evs).
Proof.
  exact (requests_hold_only_answered_rounds world_rejecting 5 "how old?" 0 state0
           [Dict "user" (Str "hello"); Dict "assistant" (Str "hi")] eq_refl).
Defined.

(** ** What the evaluator is asked *)

Lemma three_sections (l1 l2 l3 l4 n t x y z : string) :
  (((l1 +:+ n +:+ n +:+ x +:+ t) +:+ (l2 +:+ n +:+ n +:+ y +:+ t))
   +:+ (l3 +:+ n +:+ n +:+ z +:+ t)) +:+ l4
  = (l1 +:+ n +:+ n) +:+ x +:+ (t +:+ l2 +:+ n +:+ n) +:+ y
    +:+ (t +:+ l3 +:+ n +:+ n) +:+ z +:+ (t +:+ l4).
Proof. by rewrite !string_app_assoc. Qed.

(** X4.  The evaluator is asked once, on the gemini client, with exactly
    two messages whatever the length of the history: its own system
    prompt, and one user prompt in which the history is given as text,
    followed by the value of [message] and then by the candidate reply.
    The request does not depend on anything else in the state: two states
    with the same agent and the same history content give the same
    request and the same evaluation. *)
Theorem evaluation_request_shape (W : World) (reply : option string) (message : Value)
    (history : nat) (st : State) (h : list Message) :
  store st !! history = Some h ->
  exists prompt,
    evaluate W reply message history st
    = (Returned (evaluator W [Dict "system" (Str (evaluator_system_prompt (agent st)));
                              Dict "user" (Str prompt)]),
       log st [Parse gemini "gemini-2.0-flash"
                 [Dict "system" (Str (evaluator_system_prompt (agent st)));
                  Dict "user" (Str prompt)]])
    /\ (exists a b c d,
          prompt = a +:+ repr_history W h +:+ b +:+ str_value W message +:+ c
                   +:+ str_reply reply +:+ d)
    /\ (forall st2 history2,
          agent st2 = agent st ->
          store st2 !! history2 = Some h ->
          evaluate W reply message history2 st2
          = (Returned (evaluator W [Dict "system" (Str (evaluator_system_prompt (agent st)));
                                    Dict "user" (Str prompt)]),
             log st2 [Parse gemini "gemini-2.0-flash"
                        [Dict "system" (Str (evaluator_system_prompt (agent st)));
                         Dict "user" (Str prompt)]])).
Proof.
  intros Hh. exists (evaluator_user_prompt W reply message h).
  split; [by apply evaluate_run|]. split.
  - do 4 eexists. unfold evaluator_user_prompt. apply three_sections.
  - intros st2 history2 Hagent Hh2. rewrite <- Hagent. by apply evaluate_run.
Qed.

Lemma evaluation_request_witness :
  fst (evaluate world_rejecting (Some "answer") (Str "how old?") 0 state0)
  = Returned (mkEvaluation false "too terse").
Proof.
  destruct (evaluation_request_shape world_rejecting (Some "answer") (Str "how old?") 0
              state0 [Dict "user" (Str "hello"); Dict "assistant" (Str "hi")] eq_refl)
    as (prompt & Hrun & _).
  rewrite Hrun. reflexivity.
Defined.

(** ** A turn without tools, end to end *)

(** X12.  When the model answers the opening sequence at once, the turn
    makes one request to the primary endpoint and one evaluation, sends
    no notification, and the evaluator's prompt is built from the text
    the user sent.  If the evaluation accepts, the turn returns the
    model's content and prints one line; if it rejects, the turn prints
    two lines (the second is the feedback), makes one request without
    tools to the regeneration endpoint, over the history and the user's
    own message, and returns that endpoint's content. *)
Theorem plain_turn_end_to_end (W : World) (fuel : nat) (message : string)
    (history : nat) (st : State) (h : list Message) :
  store st !! history = Some h ->
  let opening :=
    [Dict "system" (Str (system_prompt (agent st)))] ++ h ++ [Dict "user" (Str message)] in
  finish_reason (primary W 0 opening) <> "tool_calls" ->
  let reply := content (resp_message (primary W 0 opening)) in
  let judged :=
    [Dict "system" (Str (evaluator_system_prompt (agent st)))]
    ++ [Dict "user" (Str (evaluator_user_prompt W reply (Str message) h))] in
  let asked :=
    [Create openai "gpt-4o-mini" opening (Some tools);
     Parse gemini "gemini-2.0-flash" judged] in
  (is_acceptable (evaluator W judged) = true ->
   fst (chat W (S fuel) message history st) = Returned reply
   /\ trace (snd (chat W (S fuel) message history st))
      = trace st ++ asked ++ [Print "Passed evaluation - returning reply"])
  /\ (is_acceptable (evaluator W judged) = false ->
      exists prompt,
        fst (chat W (S fuel) message history st)
        = Returned (content (resp_message
                      (secondary W (Dict "system" (Str prompt) :: h
                                    ++ [Dict "user" (Str message)]))))
        /\ trace (snd (chat W (S fuel) message history st))
           = trace st ++ asked
             ++ [Print "Failed evaluation - retrying";
                 Print (feedback (evaluator W judged));
                 Create gemini "gemini-2.0-flash"
                   (Dict "system" (Str prompt) :: h ++ [Dict "user" (Str message)]) None]).
Proof.
  intros Hh opening Hplain reply judged asked.
  assert (candidate W (S fuel) message history st
          = (Returned (primary W 0 opening, Str message),
             log (snd (alloc opening st)) [Create openai "gpt-4o-mini" opening (Some tools)]))
    as Hc.
  { rewrite (candidate_run _ _ _ _ _ _ Hh).
    apply chat_loop_plain; [by apply list_lookup_middle|exact Hplain]. }
  assert (store (log (snd (alloc opening st))
                   [Create openai "gpt-4o-mini" opening (Some tools)]) !! history = Some h)
    as Hh1 by (by apply lookup_app_l_Some).
  pose proof (evaluate_run W reply (Str message) history _ h Hh1) as He.
  change (evaluate W reply (Str message) history
            (log (snd (alloc opening st)) [Create openai "gpt-4o-mini" opening (Some tools)])
          = (Returned (evaluator W judged),
             log (log (snd (alloc opening st))
                    [Create openai "gpt-4o-mini" opening (Some tools)])
               [Parse gemini "gemini-2.0-flash" judged])) in He.
  rewrite chat_split, (bind_run _ _ _ _ _ Hc).
  change (quality_gate W (content (resp_message (fst (primary W 0 opening, Str message))))
            (snd (primary W 0 opening, Str message)) history)
    with (quality_gate W reply (Str message) history).
  unfold quality_gate. rewrite (bind_run _ _ _ _ _ He).
  split.
  - intros ->. unfold bind, emit, ret. simpl. split; [done|].
    by rewrite <- !app_assoc.
  - intros ->.
    destruct (rerun_run W (agent st) reply (Str message) (feedback (evaluator W judged)))
      as (prompt & _ & _ & Hrun).
    exists prompt. unfold bind, emit.
    rewrite (Hrun _ history h) by done. simpl. split; [done|].
    by rewrite <- !app_assoc.
Qed.

Lemma plain_turn_witness :
  fst (chat (scripted_world [] (plain "hello there") (mkEvaluation true "fine") (plain ""))
         1 "hi" 0 state0)
  = Returned (Some "hello there").
Proof.
  refine (proj1 (proj1
    (plain_turn_end_to_end
       (scripted_world [] (plain "hello there") (mkEvaluation true "fine") (plain ""))
       0 "hi" 0 state0 [Dict "user" (Str "hello"); Dict "assistant" (Str "hi")] eq_refl _)
    _)).
  - vm_compute. discriminate.
  - reflexivity.
Defined.
